(** * KeyFetch regional proxy node: token cache, usage ledger, request router

    A shallow embedding of the regional API server (the Hono application with
    its two process-wide globals [pendingUsage] and [tokenCache]) and the
    properties of its verification cache, its usage ledger and its router.

    Conventions of the embedding.
    - The two globals form the [State]; every handler is a function from the
      state to an [Outcome]: the value it returns, the state it leaves and
      the network calls it issued, in order.
    - Everything the code obtains from outside (clock readings, the answer of
      the identity service, the answer of the target site, the answer of the
      usage endpoint) is an explicit input of the function that consumes it.
    - A handler's function runs that handler with no other handler in
      between; the pieces that other handlers can interleave with are the
      steps of the transition system [step].
    - An [async] function that is called without [await] runs up to its first
      [await] and leaves the rest for later: [reportUsage] is therefore split
      into [reportUsage_begin] (drain and issue the call) and
      [reportUsage_settle] (what happens when the call settles).
    - JavaScript numbers that the code uses as integers (milliseconds, HTTP
      statuses, counts, credits) are [Z]. *)

From stdpp Require Import gmap strings list fin_maps.
From Stdlib Require Import ZArith Lia.

Local Open Scope Z_scope.
Local Open Scope string_scope.
Local Open Scope list_scope.

(** ** Data model (the interfaces of the source) *)

Module FetchRequest.
(** [body.body] is [unknown]: the code only asks whether it is truthy,
    whether it is a string, and otherwise for its [JSON.stringify]. *)
Inductive payload :=
| Text (s : string)
| Json (truthy : bool) (stringified : string).

Record t := mk {
  url : option string;
  method : option string;
  headers : gmap string string;
  body : option payload;
  timeout : option Z }.
End FetchRequest.

Module FetchResponse.
Record t := mk {
  status : Z;
  headers : gmap string string;
  body : string;
  region : string;
  latency_ms : Z }.
End FetchResponse.

Module Metadata.
Record t := mk {
  region : string;
  target_domain : string;
  latency_ms : Z;
  status : Z;
  bytes : Z }.
End Metadata.

Module UsageRecord.
(** [agent_id] is written as [auth.agent_id!]: the assertion has no run-time
    effect, so the field holds whatever the verification carried. *)
Record t := mk {
  agent_id : option string;
  operation : string;
  quantity : Z;
  timestamp : string;
  metadata : Metadata.t }.
End UsageRecord.

Module VerifyResponse.
Record t := mk {
  valid : bool;
  agent_id : option string;
  email : option string;
  balance : option Z;
  cost_per_unit : option Z;
  can_afford : option bool;
  error : option string }.
End VerifyResponse.

Module CacheEntry.
Record t := mk { result : VerifyResponse.t; expires : Z }.
End CacheEntry.

(** The two process-wide globals. *)
Record State := mkState {
  pendingUsage : list UsageRecord.t;
  tokenCache : gmap string CacheEntry.t }.

Definition TOKEN_CACHE_TTL : Z := 60000.

(** Network calls, as they leave the process. *)
Inductive Event :=
| VerifyCall (token service operation : string) (quantity : Z)
| OutboundCall (url method : string) (headers : gmap string string)
    (body : option string) (timeout : Z)
| UsageCall (service region : string) (records : list UsageRecord.t).

Record Outcome (A : Type) := mkOutcome {
  value : A;
  final : State;
  trace : list Event }.
Arguments mkOutcome {A} _ _ _.
Arguments value {A} _.
Arguments final {A} _.
Arguments trace {A} _.

(** ** Token verification *)

(** What the identity service does with one verify call: the [fetch] or the
    [response.json()] rejects (also a body [null], on which [data.valid]
    throws), or a [VerifyResponse] is decoded. *)
Inductive VerifyAnswer :=
| VerifyFails
| VerifyData (data : VerifyResponse.t).

(** What one run of [verifyToken] reads from outside: [Date.now()] at the
    cache check, the service's answer, [Date.now()] at the insertion. *)
Record VerifyEnv := mkVerifyEnv {
  t_lookup : Z;
  answer : VerifyAnswer;
  t_insert : Z }.

Definition denied (reason : string) : VerifyResponse.t :=
  VerifyResponse.mk false None None None None None (Some reason).

(** [cached && cached.expires > Date.now()] *)
Definition unexpired (now : Z) (cached : CacheEntry.t) : bool :=
  bool_decide (now < CacheEntry.expires cached).

(** The [try] block of [verifyToken]: the call to the verify endpoint, the
    insertion of a positive answer, and the [catch]. *)
Definition verifyToken_remote (token : string) (env : VerifyEnv) (st : State)
  : Outcome VerifyResponse.t :=
  let call := VerifyCall token "keyfetch" "proxy_request" 1 in
  match answer env with
  | VerifyData data =>
      if VerifyResponse.valid data then
        let entry := CacheEntry.mk data (t_insert env + TOKEN_CACHE_TTL) in
        mkOutcome data
          (mkState (pendingUsage st) (<[token := entry]> (tokenCache st)))
          [call]
      else mkOutcome data st [call]
  | VerifyFails =>
      mkOutcome (denied "Authentication service unavailable") st [call]
  end.

Definition verifyToken (token : string) (env : VerifyEnv) (st : State)
  : Outcome VerifyResponse.t :=
  if bool_decide (token = "") then
    mkOutcome (denied "No token provided") st []
  else
    match tokenCache st !! token with
    | Some cached =>
        if unexpired (t_lookup env) cached then
          mkOutcome (CacheEntry.result cached) st []
        else verifyToken_remote token env st
    | None => verifyToken_remote token env st
    end.

(** ** Usage ledger *)

(** What the usage endpoint does with one batch. The [bool] says whether the
    body could be read: [response.text()] on a refusal, [response.json()]
    followed by the reading of its fields on an acceptance. *)
Inductive UsageAnswer :=
| UsageThrows
| UsageRefused (text_read : bool)
| UsageAccepted (json_read : bool).

Section Node.

(** Configuration read from the environment at start-up. *)
Variable REGION : string.

(** [reportUsage] up to its first [await]: nothing happens on an empty
    ledger; otherwise [splice(0, length)] empties it into [records] and the
    call to the usage endpoint is issued with them. *)
Definition reportUsage_begin (st : State)
  : Outcome (option (list UsageRecord.t)) :=
  match pendingUsage st with
  | [] => mkOutcome None st []
  | _ :: _ =>
      let records := pendingUsage st in
      mkOutcome (Some records) (mkState [] (tokenCache st))
        [UsageCall "keyfetch" REGION records]
  end.

(** The number of arguments the engine accepts in one call. A spread call
    with more arguments throws a [RangeError] before the callee runs. *)
Variable spread_limit : nat.

(** [pendingUsage.push(...records)]: the batch is spread into the arguments
    of one call; [None] when that call throws. *)
Definition requeue (records : list UsageRecord.t) (st : State) : option State :=
  if bool_decide (length records <= spread_limit)%nat
  then Some (mkState (pendingUsage st ++ records) (tokenCache st))
  else None.

(** [reportUsage] after the call has settled, on the state of that moment.
    A refusal re-queues the batch after reading the error text; when that
    reading throws, the [catch] re-queues it instead. Any other exception
    inside the [try] reaches the same [catch], also the one of a re-queue
    that throws; the re-queue of the [catch] then throws in the same way,
    the run ends there, and the ledger is left without the batch. *)
Definition reportUsage_settle (ans : UsageAnswer)
    (records : list UsageRecord.t) (st : State) : State :=
  match ans with
  | UsageThrows => default st (requeue records st)
  | UsageRefused _ => default st (requeue records st)
  | UsageAccepted true => st
  | UsageAccepted false => default st (requeue records st)
  end.

(** An awaited [reportUsage()] with nothing running in between, as in the
    signal handlers. *)
Definition reportUsage (ans : UsageAnswer) (st : State) : Outcome unit :=
  let begun := reportUsage_begin st in
  match value begun with
  | None => mkOutcome tt (final begun) (trace begun)
  | Some records =>
      mkOutcome tt (reportUsage_settle ans records (final begun)) (trace begun)
  end.

(** ** Request router *)

(** Platform functions the handlers call. [URL_hostname s] is
    [new URL(s).hostname], [None] when the constructor throws. *)
Variable URL_hostname : string -> option string.
Variable toUpperCase : string -> string.
Variable toISOString : Z -> string.

(** [await c.req.json()]: it rejects, or yields [null] (on which the first
    property access throws), or yields a value whose fields are read. *)
Inductive JsonBody :=
| Malformed
| Null
| Fields (body : FetchRequest.t).

Record Request := mkRequest {
  authorization : option string;
  json : JsonBody }.

(** A thrown value: an [Error] with its name and message, or anything else. *)
Inductive Thrown :=
| ErrorObject (name message : string)
| OtherValue.

(** What the target does with the outbound call: [fetch] and
    [response.text()] both resolve, or one of them rejects. *)
Inductive Upstream :=
| Responded (status : Z) (headers : list (string * string)) (text : string)
| Threw (e : Thrown).

(** What one run of the fetch handler reads from outside. *)
Record FetchEnv := mkFetchEnv {
  t_start : Z;
  verify_env : VerifyEnv;
  upstream : Upstream;
  t_done : Z;
  t_stamp : Z }.

Inductive Response :=
| ErrorJson (error : option string) (code : Z)
| InsufficientCredits (balance cost_per_request : option Z)
| Fetched (result : FetchResponse.t)
| ForwardFailed (error region : string) (latency_ms : Z) (code : Z)
| UsageStats (agent_id email : option string) (balance : option Z)
    (region : string) (pending_records : nat) (cost_per_request : option Z)
| Health (status region timestamp : string) (pending_usage_records : nat).

Definition status_code (r : Response) : Z :=
  match r with
  | ErrorJson _ code => code
  | InsufficientCredits _ _ => 402
  | Fetched _ => 200
  | ForwardFailed _ _ _ code => code
  | UsageStats _ _ _ _ _ _ => 200
  | Health _ _ _ _ => 200
  end.

(** What a handler hands back: the response, and the batch of a
    [reportUsage()] it started without awaiting it, if any. *)
Record Handled := mkHandled {
  response : Response;
  floating : option (list UsageRecord.t) }.

Definition reply {A} (r : Response) (v : Outcome A) : Outcome Handled :=
  mkOutcome (mkHandled r None) (final v) (trace v).

(** An exception no handler catches: [app.onError]. *)
Definition onError {A} (v : Outcome A) : Outcome Handled :=
  reply (ErrorJson (Some "Internal server error") 500) v.

(** [s.slice(n)] *)
Fixpoint slice (n : nat) (s : string) : string :=
  match n, s with
  | O, _ => s
  | S n', String _ s' => slice n' s'
  | S _, EmptyString => EmptyString
  end.

(** [authHeader?.startsWith('Bearer ')] and [authHeader.slice(7)] *)
Definition bearer (authHeader : option string) : option string :=
  match authHeader with
  | Some h => if String.prefix "Bearer " h then Some (slice 7 h) else None
  | None => None
  end.

(** The host test of the fetch handler. *)
Definition internal_host (hostname : string) : bool :=
  bool_decide (hostname = "localhost")
  || bool_decide (hostname = "127.0.0.1")
  || String.prefix "192.168." hostname
  || String.prefix "10." hostname.

(** [Math.min(body.timeout || 30000, 30000)] *)
Definition effective_timeout (timeout : option Z) : Z :=
  Z.min (match timeout with
         | Some t => if bool_decide (t = 0) then 30000 else t
         | None => 30000
         end) 30000.

(** [(body.method || 'GET').toUpperCase()] *)
Definition effective_method (method : option string) : string :=
  toUpperCase (match method with
               | Some m => if bool_decide (m = "") then "GET" else m
               | None => "GET"
               end).

Definition truthy (p : FetchRequest.payload) : bool :=
  match p with
  | FetchRequest.Text s => negb (bool_decide (s = ""))
  | FetchRequest.Json t _ => t
  end.

(** [fetchOptions.body], set only for methods other than GET and HEAD. *)
Definition outbound_body (method : string) (b : option FetchRequest.payload)
  : option string :=
  match b with
  | Some p =>
      if negb (bool_decide (method = "GET"))
         && negb (bool_decide (method = "HEAD")) && truthy p
      then Some (match p with
                 | FetchRequest.Text s => s
                 | FetchRequest.Json _ j => j
                 end)
      else None
  | None => None
  end.

(** [response.headers.forEach((value, key) => responseHeaders[key] = value)].
    [responseHeaders] is a plain object: an assignment to its key [__proto__]
    runs the setter of [Object.prototype], which ignores a string, and
    creates no entry. *)
Definition collect_headers (hs : list (string * string)) : gmap string string :=
  foldl (fun acc kv =>
           if bool_decide (kv.1 = "__proto__") then acc
           else <[kv.1 := kv.2]> acc) ∅ hs.

Definition push (r : UsageRecord.t) (st : State) : State :=
  mkState (pendingUsage st ++ [r]) (tokenCache st).

(** The record the fetch handler queues for a response of the target. *)
Definition usage_record (auth : VerifyResponse.t) (hostname : string)
    (env : FetchEnv) (status : Z) (text : string) : UsageRecord.t :=
  UsageRecord.mk (VerifyResponse.agent_id auth) "proxy_request" 1
    (toISOString (t_stamp env))
    (Metadata.mk REGION hostname (t_done env - t_start env) status
       (Z.of_nat (String.length text))).

(** The final [try]/[catch] of the fetch handler, entered with the state
    and trace [v] left by the verification. The forced [reportUsage()] of a
    ledger above 10000 records is not awaited. *)
Definition forward (auth : VerifyResponse.t) (url hostname method : string)
    (headers : gmap string string) (body : option string) (timeout : Z)
    (env : FetchEnv) (v : Outcome VerifyResponse.t) : Outcome Handled :=
  let call := OutboundCall url method headers body timeout in
  let latency := t_done env - t_start env in
  match upstream env with
  | Responded status hs text =>
      let queued := push (usage_record auth hostname env status text) (final v) in
      let forced :=
        if bool_decide (10000 < Z.of_nat (length (pendingUsage queued)))
        then reportUsage_begin queued
        else mkOutcome None queued [] in
      mkOutcome
        (mkHandled
           (Fetched (FetchResponse.mk status (collect_headers hs) text
                       REGION latency))
           (value forced))
        (final forced)
        (trace v ++ call :: trace forced)
  | Threw (ErrorObject name message) =>
      if bool_decide (name = "TimeoutError") || bool_decide (name = "AbortError")
      then mkOutcome (mkHandled (ForwardFailed "Request timeout" REGION latency 504) None)
             (final v) (trace v ++ [call])
      else mkOutcome (mkHandled (ForwardFailed message REGION latency 502) None)
             (final v) (trace v ++ [call])
  | Threw OtherValue =>
      mkOutcome (mkHandled (ForwardFailed "Unknown error" REGION latency 500) None)
        (final v) (trace v ++ [call])
  end.

(** [app.post('/v1/fetch', ...)]. [AbortSignal.timeout] is evaluated outside
    the [try] and throws a [RangeError] on a negative delay. *)
Definition handle_fetch (req : Request) (env : FetchEnv) (st : State)
  : Outcome Handled :=
  match bearer (authorization req) with
  | None =>
      mkOutcome
        (mkHandled (ErrorJson (Some "Missing or invalid Authorization header") 401) None)
        st []
  | Some token =>
      let v := verifyToken token (verify_env env) st in
      let auth := value v in
      if negb (VerifyResponse.valid auth) then
        reply (ErrorJson (VerifyResponse.error auth) 401) v
      else if bool_decide (VerifyResponse.can_afford auth = Some false) then
        reply (InsufficientCredits (VerifyResponse.balance auth)
                 (VerifyResponse.cost_per_unit auth)) v
      else
        match json req with
        | Malformed => reply (ErrorJson (Some "Invalid JSON body") 400) v
        | Null => onError v
        | Fields body =>
            match FetchRequest.url body with
            | None => reply (ErrorJson (Some "Missing required field: url") 400) v
            | Some url =>
                if bool_decide (url = "") then
                  reply (ErrorJson (Some "Missing required field: url") 400) v
                else
                  match URL_hostname url with
                  | None => reply (ErrorJson (Some "Invalid URL") 400) v
                  | Some hostname =>
                      if internal_host hostname then
                        reply (ErrorJson (Some "Internal URLs not allowed") 403) v
                      else
                        let method := effective_method (FetchRequest.method body) in
                        let timeout := effective_timeout (FetchRequest.timeout body) in
                        if bool_decide (timeout < 0) then onError v
                        else
                          forward auth url hostname method
                            (FetchRequest.headers body ∪ {["User-Agent" := "KeyFetch/1.0"]})
                            (outbound_body method (FetchRequest.body body))
                            timeout env v
                  end
            end
        end
  end.

(** [app.get('/v1/usage', ...)] *)
Definition handle_usage (authHeader : option string) (env : VerifyEnv)
    (st : State) : Outcome Handled :=
  match bearer authHeader with
  | None => mkOutcome (mkHandled (ErrorJson (Some "Unauthorized") 401) None) st []
  | Some token =>
      let v := verifyToken token env st in
      let auth := value v in
      if negb (VerifyResponse.valid auth) then
        reply (ErrorJson (VerifyResponse.error auth) 401) v
      else
        let agentUsage :=
          filter (fun r => UsageRecord.agent_id r = VerifyResponse.agent_id auth)
            (pendingUsage (final v)) in
        reply (UsageStats (VerifyResponse.agent_id auth) (VerifyResponse.email auth)
                 (VerifyResponse.balance auth) REGION (length agentUsage)
                 (VerifyResponse.cost_per_unit auth)) v
  end.

(** [app.get('/health', ...)] *)
Definition handle_health (now : Z) (st : State) : Response :=
  Health "ok" REGION (toISOString now) (length (pendingUsage st)).

(** The request gets past authentication (token [token]), the credit check
    and the validation of its payload [body], whose url parses to
    [hostname], and the abort signal for its timeout can be built. *)
Record accepted (req : Request) (env : FetchEnv) (st : State)
    (token : string) (body : FetchRequest.t) (url hostname : string) : Prop := {
  acc_bearer : bearer (authorization req) = Some token;
  acc_valid :
    VerifyResponse.valid (value (verifyToken token (verify_env env) st)) = true;
  acc_afford :
    VerifyResponse.can_afford (value (verifyToken token (verify_env env) st))
      <> Some false;
  acc_json : json req = Fields body;
  acc_url : FetchRequest.url body = Some url;
  acc_url_given : url <> "";
  acc_parse : URL_hostname url = Some hostname;
  acc_host : internal_host hostname = false;
  acc_signal : 0 <= effective_timeout (FetchRequest.timeout body) }.

(** The payload is turned down by one of the validation gates: it is not
    JSON, it has no url, the url does not parse, or the host is internal. *)
Inductive invalid_payload : JsonBody -> Prop :=
| invalid_json : invalid_payload Malformed
| invalid_no_url body :
    FetchRequest.url body = None \/ FetchRequest.url body = Some "" ->
    invalid_payload (Fields body)
| invalid_url body url :
    FetchRequest.url body = Some url -> URL_hostname url = None ->
    invalid_payload (Fields body)
| invalid_host body url hostname :
    FetchRequest.url body = Some url -> URL_hostname url = Some hostname ->
    internal_host hostname = true ->
    invalid_payload (Fields body).

End Node.

(** ** The node as a transition system

    Between two [await]s a handler runs alone, so every run of the node is an
    interleaving of the atomic pieces below: one verification, one append by
    the fetch handler, the start of a flush, the settling of a flush. *)

Definition initial : State := mkState [] ∅.

Inductive step : State -> State -> Prop :=
| step_verify token env st :
    step st (final (verifyToken token env st))
| step_push r st :
    step st (push r st)
| step_begin region st :
    step st (final (reportUsage_begin region st))
| step_settle limit ans records st :
    step st (reportUsage_settle limit ans records st).

Definition reachable (st : State) : Prop := rtc step initial st.

(** Every entry of the token cache holds a positive verification. *)
Definition cache_positive (st : State) : Prop :=
  forall token entry,
    tokenCache st !! token = Some entry ->
    VerifyResponse.valid (CacheEntry.result entry) = true.

(** The verify call [verifyToken] issues for a token. *)
Definition verify_call (token : string) : Event :=
  VerifyCall token "keyfetch" "proxy_request" 1.

(** A handler run that stopped before the outbound call: the ledger is as it
    was, no flush was started, and the identity service is the only party
    that may have been called. *)
Record turned_away (st : State) (out : Outcome Handled) : Prop := {
  away_ledger : pendingUsage (final out) = pendingUsage st;
  away_floating : floating (value out) = None;
  away_trace : Forall (fun e => exists token, e = verify_call token) (trace out) }.

(** One flush cycle: the flush starts, the fetch handlers append [arrivals]
    while the call to the usage endpoint is in flight, then the call settles
    with [settled]. The value is the batch that was submitted, if any. *)
Record Cycle := mkCycle {
  arrivals : list UsageRecord.t;
  settled : UsageAnswer }.

Definition flush_cycle (region : string) (limit : nat) (c : Cycle) (st : State)
  : Outcome (option (list UsageRecord.t)) :=
  let begun := reportUsage_begin region st in
  let during := foldl (fun s r => push r s) (final begun) (arrivals c) in
  match value begun with
  | None => mkOutcome None during (trace begun)
  | Some records =>
      mkOutcome (Some records)
        (reportUsage_settle limit (settled c) records during) (trace begun)
  end.

Definition run_cycles (region : string) (limit : nat) (cs : list Cycle)
    (st : State) : State :=
  foldl (fun s c => final (flush_cycle region limit c s)) st cs.

(** The submission did not go through: the call threw, the endpoint answered
    with a non-success status, or reading its answer threw. *)
Definition failed (ans : UsageAnswer) : bool :=
  match ans with
  | UsageAccepted true => false
  | _ => true
  end.

(** Sample values for the concrete instances below. *)
Definition agent_ok : VerifyResponse.t :=
  VerifyResponse.mk true (Some "agent-1") (Some "agent@example.com")
    (Some 100) (Some 2) (Some true) None.

Definition agent_revoked : VerifyResponse.t :=
  VerifyResponse.mk false None None None None None (Some "Invalid token").

(** The URLs used in the concrete instances, with the host name the URL
    parser gives for them; any other string counts as unparseable here. *)
Definition sample_hostname (url : string) : option string :=
  if bool_decide (url = "https://example.com/data") then Some "example.com"
  else if bool_decide (url = "http://127.0.0.1/admin") then Some "127.0.0.1"
  else if bool_decide (url = "http://10.0.0.8/") then Some "10.0.0.8"
  else None.

(** Upper-casing of the method names used in the concrete instances. *)
Definition sample_upper (s : string) : string :=
  if bool_decide (s = "get") then "GET"
  else if bool_decide (s = "post") then "POST"
  else s.

(** A stand-in for the ISO rendering of an instant. *)
Definition sample_iso (t : Z) : string :=
  if bool_decide (t = 0) then "1970-01-01T00:00:00.000Z" else "later".

Definition plain_body (url : string) : FetchRequest.t :=
  FetchRequest.mk (Some url) None ∅ None None.

Definition slow_body : FetchRequest.t :=
  FetchRequest.mk (Some "https://example.com/data") (Some "get") ∅ None
    (Some 60000).

Definition get_request (url : string) : Request :=
  mkRequest (Some "Bearer tok") (Fields (plain_body url)).

Definition slow_request : Request :=
  mkRequest (Some "Bearer tok") (Fields slow_body).

Definition anonymous_request (url : string) : Request :=
  mkRequest None (Fields (plain_body url)).

Definition env_ok : VerifyEnv := mkVerifyEnv 1000 (VerifyData agent_ok) 1200.
Definition env_down : VerifyEnv := mkVerifyEnv 1000 VerifyFails 1200.
Definition env_revoked : VerifyEnv :=
  mkVerifyEnv 1000 (VerifyData agent_revoked) 1200.
Definition env_revoked_again : VerifyEnv :=
  mkVerifyEnv 1500 (VerifyData agent_revoked) 1700.

Definition fetch_env (v : VerifyEnv) (up : Upstream) : FetchEnv :=
  mkFetchEnv 990 v up 1040 0.

Definition timed_out : Upstream :=
  Threw (ErrorObject "TimeoutError" "The operation was aborted due to timeout").

Definition sample_fetch : Request -> FetchEnv -> State -> Outcome Handled :=
  handle_fetch "eu-frankfurt" sample_hostname sample_upper sample_iso.

Definition sample_record (agent : string) (status : Z) : UsageRecord.t :=
  UsageRecord.mk (Some agent) "proxy_request" 1 "later"
    (Metadata.mk "eu-frankfurt" "example.com" 50 status 5).

Definition two_agents : State :=
  mkState [sample_record "agent-1" 200; sample_record "agent-2" 404] ∅.

(** An engine that takes up to 125000 arguments in one call, and a ledger
    that failed flushes and arrivals have let grow to 200000 records. *)
Definition sample_spread_limit : nat := Z.to_nat 125000.

Definition overgrown_ledger : State :=
  mkState (replicate (Z.to_nat 200000) (sample_record "agent-1" 200)) ∅.

Definition full_ledger : State :=
  mkState (replicate (Z.to_nat 10000) (sample_record "agent-2" 200)) ∅.

Definition agent_broke : VerifyResponse.t :=
  VerifyResponse.mk true (Some "agent-9") None (Some 1) (Some 2) (Some false) None.

Definition env_broke : VerifyEnv := mkVerifyEnv 1000 (VerifyData agent_broke) 1200.

(** ** The ledger with its flushes in flight

    Several flushes can be pending at once: the timer fires, or the fetch
    handler forces a flush, while an earlier call to the usage endpoint has
    not settled. [flights] are the batches held by the suspended runs of
    [reportUsage], [acknowledged] the records of the batches the usage
    endpoint has taken. *)
Record Node := mkNode {
  globals : State;
  flights : list (list UsageRecord.t);
  acknowledged : list UsageRecord.t }.

(** What can happen between two [await]s: the fetch handler appends a
    record, a run of [reportUsage] reaches its [await], the call of the
    [i]-th pending run settles, a token is verified. *)
Inductive Action :=
| Arrive (r : UsageRecord.t)
| Begin
| Settle (i : nat) (ans : UsageAnswer)
| Verify (token : string) (env : VerifyEnv).

Definition act (region : string) (limit : nat) (a : Action) (n : Node) : Node :=
  match a with
  | Arrive r => mkNode (push r (globals n)) (flights n) (acknowledged n)
  | Begin =>
      let begun := reportUsage_begin region (globals n) in
      match value begun with
      | Some records =>
          mkNode (final begun) (flights n ++ [records]) (acknowledged n)
      | None => mkNode (final begun) (flights n) (acknowledged n)
      end
  | Settle i ans =>
      match flights n !! i with
      | Some records =>
          mkNode (reportUsage_settle limit ans records (globals n))
            (delete i (flights n))
            (if failed ans then acknowledged n else acknowledged n ++ records)
      | None => n
      end
  | Verify token env =>
      mkNode (final (verifyToken token env (globals n))) (flights n)
        (acknowledged n)
  end.

Definition run (region : string) (limit : nat) (script : list Action)
    (n : Node) : Node :=
  foldl (fun n a => act region limit a n) n script.

(** The records the fetch handler appended during a script. *)
Definition arrived (script : list Action) : list UsageRecord.t :=
  script ≫= fun a => match a with Arrive r => [r] | _ => [] end.

(** Everything the node holds or has delivered. *)
Definition held (n : Node) : list UsageRecord.t :=
  pendingUsage (globals n) ++ concat (flights n) ++ acknowledged n.

(** The records the node still has to deliver. *)
Definition outstanding (n : Node) : list UsageRecord.t :=
  pendingUsage (globals n) ++ concat (flights n).

Definition idle : Node := mkNode initial [] [].

(** A script with two overlapping flushes: the second starts while the
    first is pending, and the first settles last. *)
Definition overlapping : list Action :=
  [Arrive (sample_record "agent-1" 200); Begin;
   Arrive (sample_record "agent-2" 404); Begin;
   Arrive (sample_record "agent-3" 200);
   Settle 1 (UsageAccepted true); Settle 0 UsageThrows].

(** ** Edge functions

    The two Pages functions that stand in front of the regional nodes. What
    they read from outside is an input: the parsed request url, the [cf]
    object, the result of reading the request body, and what the regional
    node did with the forwarded request. *)

Module Edge.

(** The [Headers] class keeps names in lower case, byte by byte. *)
Definition lower_byte (a : Ascii.ascii) : Ascii.ascii :=
  let n := Ascii.N_of_ascii a in
  if ((65 <=? n) && (n <=? 90))%N then Ascii.ascii_of_N (n + 32) else a.

Fixpoint lowercase (s : string) : string :=
  match s with
  | EmptyString => EmptyString
  | String a s' => String (lower_byte a) (lowercase s')
  end.

(** [headers.set(name, value)], [headers.delete(name)], [headers.get(name)] *)
Definition set (name value : string) (h : gmap string string)
  : gmap string string := <[lowercase name := value]> h.

Definition remove (name : string) (h : gmap string string)
  : gmap string string := delete (lowercase name) h.

Definition get (name : string) (h : gmap string string) : option string :=
  h !! lowercase name.

(** [new Headers({...})] of an object literal. *)
Definition literal (fields : list (string * string)) : gmap string string :=
  foldl (fun h kv => set kv.1 kv.2 h) ∅ fields.

(** [new URL(request.url)], as far as the functions read it. *)
Record URL := mkURL {
  hostname : string;
  pathname : string;
  search : string }.

(** [request.cf] *)
Record Cf := mkCf {
  colo : option string;
  ip : option string }.

(** The result of [await request.arrayBuffer()] or [await request.text()]. *)
Inductive Read :=
| Content (text : string)
| ReadThrew (e : Thrown).

Record Request := mkRequest {
  method : string;
  url : URL;
  headers : gmap string string;
  cf : option Cf;
  body : Read }.

(** What the regional node does with the forwarded request: [fetch]
    resolves with a response, or rejects. *)
Inductive Backend :=
| Answered (status : Z) (statusText : string) (headers : gmap string string)
    (body : string)
| FetchThrew (e : Thrown).

(** The forwarded request. *)
Record Call := mkCall {
  target : string;
  call_method : string;
  call_headers : gmap string string;
  call_body : option string }.

Inductive Body :=
| NoBody
| Passed (content : string)
| ProxyError (error message target : string)
| BackendUnavailable (error : string) (details : option string).

Record Response := mkResponse {
  status : Z;
  statusText : string;
  response_headers : gmap string string;
  response_body : Body }.

Record Reply := mkReply {
  response : Response;
  call : option Call }.

(** [s.replace(/^\/api/, '')] *)
Definition strip_api (path : string) : string :=
  if String.prefix "/api" path then slice 4 path else path.

(** [new Response(body, {status, ...})] takes a status from 200 to 599 and
    throws a [RangeError] on any other. *)
Definition response_status (status : Z) : bool :=
  bool_decide (200 <= status <= 599).

(** The headers of [new Request(url, {headers, body})]: a body that is a
    string brings the content type of text when the headers name none. *)
Definition request_headers (body : option string) (h : gmap string string)
  : gmap string string :=
  match body, get "Content-Type" h with
  | Some _, None => set "Content-Type" "text/plain;charset=UTF-8" h
  | _, _ => h
  end.

(** [x || 'unknown'] *)
Definition or_unknown (x : option string) : string :=
  match x with
  | Some s => if bool_decide (s = "") then "unknown" else s
  | None => "unknown"
  end.

End Edge.

(** *** The function for /api/* *)

Module ApiProxy.
Import Edge.

Definition REGION_SERVERS : gmap string string :=
  list_to_map
    [("eu-frankfurt", "http://fra.klawfetch.xyz:3000");
     ("ap-sydney", "http://syd.klawfetch.xyz:3000");
     ("us-west", "http://sfo.klawfetch.xyz:3000");
     ("us-east", "http://nyc.klawfetch.xyz:3000")].

Definition Europe : list string :=
  ["FRA"; "AMS"; "LHR"; "CDG"; "WAW"; "VIE"; "PRG"; "ZRH"; "MIL"; "MAD"; "BCN"].

Definition AsiaPacific : list string :=
  ["SYD"; "MEL"; "SIN"; "HKG"; "NRT"; "ICN"; "BOM"; "DEL"; "BKK"].

Definition USWest : list string :=
  ["SFO"; "LAX"; "SEA"; "SJC"; "PDX"; "DEN"; "PHX"].

Section WithPlatform.

(** [status_error status] is the message of the [RangeError] with which
    [new Response] turns down a status. *)
Variable toUpperCase : string -> string.
Variable status_error : Z -> string.

Definition getServerForRegion (colo : option string) : string :=
  match colo with
  | None => REGION_SERVERS !!! "us-east"
  | Some c =>
      if bool_decide (c = "") then REGION_SERVERS !!! "us-east"
      else
        let upper := toUpperCase c in
        if bool_decide (upper ∈ Europe) then REGION_SERVERS !!! "eu-frankfurt"
        else if bool_decide (upper ∈ AsiaPacific) then REGION_SERVERS !!! "ap-sydney"
        else if bool_decide (upper ∈ USWest) then REGION_SERVERS !!! "us-west"
        else REGION_SERVERS !!! "us-east"
  end.

(** The reply of the [catch]. *)
Definition proxy_error (serverUrl : string) (e : Thrown) (c : option Call)
  : Reply :=
  mkReply
    (mkResponse 502 ""
       (literal [("Content-Type", "application/json");
                 ("Access-Control-Allow-Origin", "*")])
       (ProxyError "Proxy error"
          (match e with
           | ErrorObject _ message => message
           | OtherValue => "Unknown error"
           end)
          serverUrl))
    c.

Definition onRequest (request : Request) (backend : Backend) : Reply :=
  let colo := cf request ≫= Edge.colo in
  let serverUrl := getServerForRegion colo in
  let path := strip_api (pathname (url request)) in
  let targetUrl := serverUrl +:+ path +:+ search (url request) in
  let headers :=
    remove "host"
      (set "X-Forwarded-Host" (hostname (url request))
         (set "X-Forwarded-Proto" "https"
            (set "X-Forwarded-For" (or_unknown (cf request ≫= ip))
               (headers request)))) in
  let forward (body : option string) : Reply :=
    let c := mkCall targetUrl (method request) headers body in
    match backend with
    | Answered status statusText responseHeaders content =>
        if response_status status then
          mkReply
            (mkResponse status statusText
               (set "X-Region" (or_unknown colo)
                  (set "X-Served-By" serverUrl
                     (set "Access-Control-Allow-Origin" "*" responseHeaders)))
               (Passed content))
            (Some c)
        else
          proxy_error serverUrl (ErrorObject "RangeError" (status_error status))
            (Some c)
    | FetchThrew e => proxy_error serverUrl e (Some c)
    end in
  if bool_decide (method request <> "GET")
     && bool_decide (method request <> "HEAD")
  then
    match body request with
    | Content text => forward (Some text)
    | ReadThrew e => proxy_error serverUrl e None
    end
  else forward None.

(** [onRequestOptions] *)
Definition onRequestOptions : Response :=
  mkResponse 200 ""
    (literal [("Access-Control-Allow-Origin", "*");
              ("Access-Control-Allow-Methods", "GET, POST, PUT, DELETE, OPTIONS");
              ("Access-Control-Allow-Headers", "Content-Type, Authorization");
              ("Access-Control-Max-Age", "86400")])
    NoBody.

End WithPlatform.

End ApiProxy.

(** *** The function for /v1/* *)

Module V1Proxy.
Import Edge.

Definition BACKENDS : gmap string string :=
  list_to_map
    [("eu-frankfurt", "http://fra.klawfetch.xyz:3000");
     ("ap-sydney", "http://syd.klawfetch.xyz:3000");
     ("us-west", "http://sfo.klawfetch.xyz:3000");
     ("us-east", "http://nyc.klawfetch.xyz:3000")].

Definition DEFAULT_REGION : string := "us-east".

(** [BACKENDS] is an object literal: a key it does not own is looked up in
    [Object.prototype], whose properties are functions or objects. *)
Inductive Property :=
| Own (url : string)
| Inherited
| Undefined.

Definition Object_prototype : list string :=
  ["constructor"; "__defineGetter__"; "__defineSetter__"; "hasOwnProperty";
   "__lookupGetter__"; "__lookupSetter__"; "isPrototypeOf";
   "propertyIsEnumerable"; "toString"; "valueOf"; "__proto__";
   "toLocaleString"].

(** [BACKENDS[key]] *)
Definition lookup (key : string) : Property :=
  match BACKENDS !! key with
  | Some url => Own url
  | None =>
      if bool_decide (key ∈ Object_prototype) then Inherited else Undefined
  end.

Section WithPlatform.

(** [JSON_region text] is the property key of [JSON.parse(text).region] when
    the text parses to a value whose [region] is truthy, and [None] when the
    parsing or the property access throws or the region is missing or falsy.
    [invalid_url] is the message of the [TypeError] with which [new Request]
    turns down a string that is no absolute url, [status_error status] the
    message of the [RangeError] with which [new Response] turns down a
    status. *)
Variable JSON_region : string -> option string.
Variable invalid_url : string.
Variable status_error : Z -> string.

(** The reply of the outer [catch]. *)
Definition backend_unavailable (e : Thrown) (c : option Call) : Reply :=
  mkReply
    (mkResponse 502 ""
       (literal [("Content-Type", "application/json");
                 ("Access-Control-Allow-Origin", "*")])
       (BackendUnavailable "Backend unavailable"
          (match e with
           | ErrorObject _ message => Some message
           | OtherValue => None
           end)))
    c.

(** The region after the inner [try]. *)
Definition chosen_region (bodyText : option string) : string :=
  match bodyText with
  | Some text =>
      match JSON_region text with
      | Some key =>
          match lookup key with
          | Undefined => DEFAULT_REGION
          | _ => key
          end
      | None => DEFAULT_REGION
      end
  | None => DEFAULT_REGION
  end.

(** The part of [onRequest] after the body has been read or left alone. *)
Definition route (request : Request) (bodyText : option string)
    (backend : Backend) : Reply :=
  match lookup (chosen_region bodyText) with
  | Own backendBase =>
      let backendUrl :=
        backendBase +:+ (pathname (url request) +:+ search (url request)) in
      let c :=
        mkCall backendUrl (method request)
          (request_headers bodyText (headers request)) bodyText in
      match backend with
      | Answered status statusText responseHeaders content =>
          if response_status status then
            mkReply
              (mkResponse status statusText
                 (set "Access-Control-Allow-Headers" "Authorization, Content-Type"
                    (set "Access-Control-Allow-Methods"
                       "GET, POST, PUT, DELETE, OPTIONS"
                       (set "Access-Control-Allow-Origin" "*" responseHeaders)))
                 (Passed content))
              (Some c)
          else
            backend_unavailable (ErrorObject "RangeError" (status_error status))
              (Some c)
      | FetchThrew e => backend_unavailable e (Some c)
      end
  | Inherited | Undefined =>
      backend_unavailable (ErrorObject "TypeError" invalid_url) None
  end.

Definition onRequest (request : Request) (backend : Backend) : Reply :=
  if bool_decide (method request = "OPTIONS") then
    mkReply
      (mkResponse 204 ""
         (literal [("Access-Control-Allow-Origin", "*");
                   ("Access-Control-Allow-Methods",
                    "GET, POST, PUT, DELETE, OPTIONS");
                   ("Access-Control-Allow-Headers", "Authorization, Content-Type");
                   ("Access-Control-Max-Age", "86400")])
         NoBody)
      None
  else if bool_decide (method request = "POST") then
    match body request with
    | Content text => route request (Some text) backend
    | ReadThrew e => backend_unavailable e None
    end
  else route request None backend.

End WithPlatform.

End V1Proxy.

(** The body text the function for /v1/* holds after reading: the text of a
    POST, nothing for any other method. *)
Definition v1_body_text (request : Edge.Request) : option string :=
  if bool_decide (Edge.method request = "POST") then
    match Edge.body request with
    | Edge.Content text => Some text
    | Edge.ReadThrew _ => None
    end
  else None.

(** Sample inputs of the edge functions. *)
Definition colo_upper (s : string) : string :=
  if bool_decide (s = "fra") then "FRA"
  else if bool_decide (s = "syd") then "SYD"
  else if bool_decide (s = "sfo") then "SFO"
  else s.

(** The JSON text of an object with the one field [region]. *)
Definition quoted (s : string) : string :=
  String (Ascii.ascii_of_nat 34) (s +:+ String (Ascii.ascii_of_nat 34) "").

Definition region_json (region : string) : string :=
  "{" +:+ quoted "region" +:+ ":" +:+ quoted region +:+ "}".

(** The region keys of the sample texts; any other text counts as having
    none. *)
Definition sample_region_of (text : string) : option string :=
  if bool_decide (text = region_json "ap-sydney") then Some "ap-sydney"
  else if bool_decide (text = region_json "constructor") then Some "constructor"
  else if bool_decide (text = region_json "mars") then Some "mars"
  else None.

Definition edge_headers : gmap string string :=
  {["host" := "klawfetch.xyz"]} ∪ {["authorization" := "Bearer tok"]}
  ∪ {["x-forwarded-for" := "10.1.2.3"]}.

Definition api_request : Edge.Request :=
  Edge.mkRequest "POST"
    (Edge.mkURL "klawfetch.xyz" "/api/v1/fetch" "?debug=1")
    edge_headers
    (Some (Edge.mkCf (Some "fra") (Some "203.0.113.7")))
    (Edge.Content "{}").

Definition v1_request (method text : string) : Edge.Request :=
  Edge.mkRequest method (Edge.mkURL "klawfetch.xyz" "/v1/fetch" "")
    edge_headers None (Edge.Content text).

Definition node_answer : Edge.Backend :=
  Edge.Answered 200 "OK" {["access-control-allow-origin" := "https://evil.example"]}
    "{}".

(** An answer with a status no response can be built with. *)
Definition odd_answer : Edge.Backend := Edge.Answered 999 "" ∅ "denied".

Definition sample_status_error (status : Z) : string :=
  "Responses may only be constructed with status codes in the range 200 to 599, inclusive.".

(** * Properties *)

(** ** Token verification cache *)

Lemma verifyToken_remote_trace token env st :
  trace (verifyToken_remote token env st) = [verify_call token].
Proof.
  unfold verifyToken_remote.
  destruct (answer env) as [|data]; [done|].
  by destruct (VerifyResponse.valid data).
Qed.

(** [verifyToken] issues no call or exactly the verify call. *)
Lemma verifyToken_trace token env st :
  trace (verifyToken token env st) = [] \/
  trace (verifyToken token env st) = [verify_call token].
Proof.
  unfold verifyToken.
  case_bool_decide; [by left|].
  destruct (tokenCache st !! token) as [cached|];
    [destruct (unexpired (t_lookup env) cached); [by left|]|];
    right; apply verifyToken_remote_trace.
Qed.

(** A non-empty token with no unexpired entry goes to the identity service. *)
Lemma verifyToken_miss token env st :
  token <> "" ->
  (forall cached, tokenCache st !! token = Some cached ->
                  CacheEntry.expires cached <= t_lookup env) ->
  verifyToken token env st = verifyToken_remote token env st.
Proof.
  intros Hne Hold. unfold verifyToken.
  rewrite bool_decide_eq_false_2 by done.
  destruct (tokenCache st !! token) as [cached|] eqn:Hc; [|done].
  unfold unexpired. rewrite bool_decide_eq_false_2; [done|].
  specialize (Hold cached eq_refl). lia.
Qed.

(** A non-empty token with an unexpired entry is answered from the cache. *)
Lemma verifyToken_hit token env st cached :
  token <> "" ->
  tokenCache st !! token = Some cached ->
  t_lookup env < CacheEntry.expires cached ->
  verifyToken token env st = mkOutcome (CacheEntry.result cached) st [].
Proof.
  intros Hne Hc Hlt. unfold verifyToken.
  rewrite bool_decide_eq_false_2 by done.
  rewrite Hc. unfold unexpired. by rewrite bool_decide_eq_true_2.
Qed.

(** When the identity service was called, there was no unexpired entry. *)
Lemma verifyToken_called token env st :
  trace (verifyToken token env st) <> [] ->
  token <> "" /\
  (forall cached, tokenCache st !! token = Some cached ->
                  CacheEntry.expires cached <= t_lookup env) /\
  verifyToken token env st = verifyToken_remote token env st.
Proof.
  unfold verifyToken. intros Htr.
  case_bool_decide as Hne; [done|].
  destruct (tokenCache st !! token) as [cached|] eqn:Hc.
  - unfold unexpired in *. case_bool_decide as Hexp; [done|].
    split; [done|]. split; [|done].
    intros c [= <-]. lia.
  - split; [done|]. split; [|done]. intros c [=].
Qed.

(** [verifyToken] never touches the ledger. *)
Lemma verifyToken_ledger token env st :
  pendingUsage (final (verifyToken token env st)) = pendingUsage st.
Proof.
  unfold verifyToken, verifyToken_remote.
  repeat (case_bool_decide || case_match); done.
Qed.

(** A verification of one token leaves the entries of the others alone. *)
Lemma verifyToken_other token token' env st :
  token <> token' ->
  tokenCache (final (verifyToken token env st)) !! token' = tokenCache st !! token'.
Proof.
  intros Hne. unfold verifyToken, verifyToken_remote.
  repeat (case_bool_decide || case_match); simpl; try done;
    by rewrite lookup_insert_ne.
Qed.

(** A negative verification leaves the whole state as it was. *)
Lemma verifyToken_negative token env st :
  VerifyResponse.valid (value (verifyToken token env st)) = false ->
  final (verifyToken token env st) = st.
Proof.
  unfold verifyToken, verifyToken_remote.
  repeat (case_bool_decide || case_match); simpl; try done; congruence.
Qed.

Lemma verifyToken_positive token env st :
  cache_positive st -> cache_positive (final (verifyToken token env st)).
Proof.
  intros Hst k c. unfold verifyToken, verifyToken_remote.
  repeat (case_bool_decide || case_match); simpl; try apply Hst;
    (rewrite lookup_insert; case_decide; [|apply Hst]);
    by intros [= <-].
Qed.

Lemma step_positive st st' :
  step st st' -> cache_positive st -> cache_positive st'.
Proof.
  destruct 1 as [token env st|r st|region st|limit ans records st]; intros Hst.
  - by apply verifyToken_positive.
  - exact Hst.
  - unfold reportUsage_begin. by destruct (pendingUsage st).
  - unfold reportUsage_settle, requeue.
    destruct ans as [|b|[|]]; try case_bool_decide; exact Hst.
Qed.

Lemma reachable_positive st : reachable st -> cache_positive st.
Proof.
  unfold reachable. revert st. apply rtc_ind_r.
  - intros k c. unfold initial. simpl. by rewrite lookup_empty.
  - eauto using step_positive.
Qed.

(** The fetch and usage handlers extract the token after the scheme. *)
Lemma prefix_append (s t : string) : String.prefix s (s +:+ t) = true.
Proof.
  induction s as [|a s IH]; [by destruct t|].
  change (String a s +:+ t) with (String a (s +:+ t)).
  cbn [String.prefix]. by destruct (Ascii.ascii_dec a a).
Qed.

Lemma slice_append (s t : string) : slice (String.length s) (s +:+ t) = t.
Proof. induction s as [|a s IH]; [by destruct t|exact IH]. Qed.

Lemma bearer_token token : bearer (Some ("Bearer " +:+ token)) = Some token.
Proof.
  unfold bearer. rewrite prefix_append.
  exact (f_equal Some (slice_append "Bearer " token)).
Qed.

(** C4: for a non-empty token T, once a verification of T has returned a
    valid result, the cache holds that result for T under an expiry time
    (60000 ms after the insertion when the identity service was asked); until
    that time, and as long as the entry of T is the same, every verification
    of T returns that same result, leaves the state alone and issues no call;
    from that time on a verification of T calls the identity service again. *)
Theorem verifyToken_hit_within_ttl (T : string) (env1 : VerifyEnv) (st : State) :
  T <> "" ->
  VerifyResponse.valid (value (verifyToken T env1 st)) = true ->
  exists expires : Z,
    tokenCache (final (verifyToken T env1 st)) !! T
      = Some (CacheEntry.mk (value (verifyToken T env1 st)) expires) /\
    (trace (verifyToken T env1 st) <> [] -> expires = t_insert env1 + 60000) /\
    (forall env2 st2,
        tokenCache st2 !! T = tokenCache (final (verifyToken T env1 st)) !! T ->
        t_lookup env2 < expires ->
        verifyToken T env2 st2
          = mkOutcome (value (verifyToken T env1 st)) st2 []) /\
    (forall env2 st2,
        tokenCache st2 !! T = tokenCache (final (verifyToken T env1 st)) !! T ->
        expires <= t_lookup env2 ->
        trace (verifyToken T env2 st2) = [verify_call T]).
Proof.
  intros Hne Hvalid.
  assert (Hlater : forall (r : VerifyResponse.t) (e : Z) (s1 : State),
             tokenCache s1 !! T = Some (CacheEntry.mk r e) ->
             (forall env2 st2, tokenCache st2 !! T = tokenCache s1 !! T ->
                t_lookup env2 < e ->
                verifyToken T env2 st2 = mkOutcome r st2 []) /\
             (forall env2 st2, tokenCache st2 !! T = tokenCache s1 !! T ->
                e <= t_lookup env2 ->
                trace (verifyToken T env2 st2) = [verify_call T])).
  { intros r e s1 Hentry. split; intros env2 st2 Hsame Ht; rewrite Hentry in Hsame.
    - by rewrite (verifyToken_hit T env2 st2 _ Hne Hsame).
    - rewrite verifyToken_miss; [apply verifyToken_remote_trace|done|].
      intros c Hc. rewrite Hsame in Hc. by injection Hc as <-. }
  assert (Hremote : verifyToken T env1 st = verifyToken_remote T env1 st ->
            exists expires : Z,
              tokenCache (final (verifyToken T env1 st)) !! T
                = Some (CacheEntry.mk (value (verifyToken T env1 st)) expires) /\
              expires = t_insert env1 + 60000).
  { intros Heq. rewrite Heq in Hvalid |- *. revert Hvalid.
    unfold verifyToken_remote.
    destruct (answer env1) as [|data]; [done|].
    destruct (VerifyResponse.valid data) eqn:Hd; simpl; [intros _|congruence].
    eexists. split; [apply lookup_insert_eq|done]. }
  destruct (tokenCache st !! T) as [[r e]|] eqn:Hc;
    [destruct (decide (t_lookup env1 < e)) as [Hlt|Hge]|].
  - rewrite (verifyToken_hit T env1 st _ Hne Hc Hlt). simpl.
    exists e. split; [done|]. split; [done|]. by apply Hlater.
  - destruct Hremote as (x & Hentry & ->).
    { apply verifyToken_miss; [done|]. intros c Hc'.
      rewrite Hc in Hc'. injection Hc' as <-. simpl. lia. }
    eexists. split; [exact Hentry|]. split; [done|]. by apply Hlater.
  - destruct Hremote as (x & Hentry & ->).
    { apply verifyToken_miss; [done|]. intros c Hc'.
      rewrite Hc in Hc'. discriminate. }
    eexists. split; [exact Hentry|]. split; [done|]. by apply Hlater.
Qed.

Lemma verifyToken_hit_within_ttl_witness :
  "tok" <> "" /\
  VerifyResponse.valid (value (verifyToken "tok" env_ok initial)) = true /\
  exists expires : Z,
    tokenCache (final (verifyToken "tok" env_ok initial)) !! "tok"
      = Some (CacheEntry.mk (value (verifyToken "tok" env_ok initial)) expires) /\
    (trace (verifyToken "tok" env_ok initial) <> [] ->
     expires = t_insert env_ok + 60000) /\
    (forall env2 st2,
        tokenCache st2 !! "tok"
          = tokenCache (final (verifyToken "tok" env_ok initial)) !! "tok" ->
        t_lookup env2 < expires ->
        verifyToken "tok" env2 st2
          = mkOutcome (value (verifyToken "tok" env_ok initial)) st2 []) /\
    (forall env2 st2,
        tokenCache st2 !! "tok"
          = tokenCache (final (verifyToken "tok" env_ok initial)) !! "tok" ->
        expires <= t_lookup env2 ->
        trace (verifyToken "tok" env2 st2) = [verify_call "tok"]).
Proof.
  split; [discriminate|]. split; [reflexivity|].
  apply (verifyToken_hit_within_ttl "tok" env_ok initial);
    [discriminate|reflexivity].
Defined.

(** C5: when the call to the verify endpoint is made and fails (the fetch or
    the decoding throws), [verifyToken] returns exactly
    [{valid: false, error: "Authentication service unavailable"}] and changes
    nothing; the fetch handler and the usage handler answer 401 with that
    error, make no further call, append no usage record and start no flush. *)
Theorem verify_failure_fails_closed (T : string) (env : VerifyEnv) (st : State) :
  trace (verifyToken T env st) <> [] ->
  answer env = VerifyFails ->
  verifyToken T env st
    = mkOutcome (denied "Authentication service unavailable") st [verify_call T] /\
  VerifyResponse.valid (value (verifyToken T env st)) = false /\
  (forall REGION URL_hostname toUpperCase toISOString req fenv,
      bearer (authorization req) = Some T ->
      verify_env fenv = env ->
      let out := handle_fetch REGION URL_hostname toUpperCase toISOString req fenv st in
      response (value out)
        = ErrorJson (Some "Authentication service unavailable") 401 /\
      status_code (response (value out)) = 401 /\
      floating (value out) = None /\
      final out = st /\
      trace out = [verify_call T]) /\
  (forall REGION authHeader,
      bearer authHeader = Some T ->
      let out := handle_usage REGION authHeader env st in
      response (value out)
        = ErrorJson (Some "Authentication service unavailable") 401 /\
      final out = st /\
      trace out = [verify_call T]).
Proof.
  intros Hcalled Hfails.
  assert (Hv : verifyToken T env st
               = mkOutcome (denied "Authentication service unavailable") st
                   [verify_call T]).
  { destruct (verifyToken_called T env st Hcalled) as (_ & _ & ->).
    unfold verifyToken_remote. by rewrite Hfails. }
  split; [exact Hv|]. split; [by rewrite Hv|]. split.
  - intros REGION URL_hostname toUpperCase toISOString req fenv Hb <-.
    unfold handle_fetch. rewrite Hb, Hv. by simpl.
  - intros REGION authHeader Hb.
    unfold handle_usage. rewrite Hb, Hv. by simpl.
Qed.

Lemma verify_failure_fails_closed_witness :
  trace (verifyToken "tok" env_down initial) <> [] /\
  answer env_down = VerifyFails /\
  verifyToken "tok" env_down initial
    = mkOutcome (denied "Authentication service unavailable") initial
        [verify_call "tok"] /\
  response (value (sample_fetch (get_request "https://example.com/data")
                     (fetch_env env_down (Responded 200 [] "hello")) initial))
    = ErrorJson (Some "Authentication service unavailable") 401 /\
  final (sample_fetch (get_request "https://example.com/data")
           (fetch_env env_down (Responded 200 [] "hello")) initial)
    = initial /\
  trace (sample_fetch (get_request "https://example.com/data")
           (fetch_env env_down (Responded 200 [] "hello")) initial)
    = [verify_call "tok"].
Proof.
  assert (Hcalled : trace (verifyToken "tok" env_down initial) <> [])
    by (vm_compute; discriminate).
  destruct (verify_failure_fails_closed "tok" env_down initial Hcalled eq_refl)
    as (Hv & _ & Hfetch & _).
  destruct (Hfetch "eu-frankfurt" sample_hostname sample_upper sample_iso
              (get_request "https://example.com/data")
              (fetch_env env_down (Responded 200 [] "hello")) eq_refl eq_refl)
    as (Hresp & _ & _ & Hfinal & Htrace).
  repeat split; assumption.
Defined.

(** Every handler is a sequence of atomic pieces of the transition system. *)
Lemma reportUsage_begin_steps region st :
  rtc step st (final (reportUsage_begin region st)).
Proof. apply rtc_once, step_begin. Qed.

Lemma forward_steps REGION toISOString auth url hostname method headers body
    timeout env v st :
  rtc step st (final v) ->
  rtc step st (final (forward REGION toISOString auth url hostname method
                        headers body timeout env v)).
Proof.
  intros Hv. unfold forward.
  destruct (upstream env) as [status hs text|[name message|]]; simpl.
  - case_bool_decide; simpl.
    + eapply rtc_r; [eapply rtc_r; [exact Hv|apply step_push]|apply step_begin].
    + eapply rtc_r; [exact Hv|apply step_push].
  - by destruct (_ || _).
  - done.
Qed.

Lemma handle_fetch_steps REGION URL_hostname toUpperCase toISOString req env st :
  rtc step st
    (final (handle_fetch REGION URL_hostname toUpperCase toISOString req env st)).
Proof.
  unfold handle_fetch, onError, reply.
  repeat (case_bool_decide || case_match); simpl;
    try reflexivity; try (apply rtc_once, step_verify).
  all: apply forward_steps, rtc_once, step_verify.
Qed.

Lemma handle_usage_steps REGION authHeader env st :
  rtc step st (final (handle_usage REGION authHeader env st)).
Proof.
  unfold handle_usage, reply.
  repeat case_match; simpl; try reflexivity; apply rtc_once, step_verify.
Qed.

(** C6: in every reachable state of the node all cached entries are positive
    verifications, and they still are after any verification and any run of
    the fetch or usage handler; a verification that yields [valid: false]
    leaves the cache (and the whole state) as it was; and after a negative
    answer of the identity service for a token, any later verification of the
    same token against the same cache entry asks the identity service again. *)
Theorem negative_results_never_cached (T : string) (env env' : VerifyEnv)
    (st st' : State) :
  reachable st ->
  VerifyResponse.valid (value (verifyToken T env st)) = false ->
  cache_positive st /\
  cache_positive (final (verifyToken T env st)) /\
  (forall REGION URL_hostname toUpperCase toISOString req fenv,
      cache_positive
        (final (handle_fetch REGION URL_hostname toUpperCase toISOString
                  req fenv st))) /\
  (forall REGION authHeader venv,
      cache_positive (final (handle_usage REGION authHeader venv st))) /\
  final (verifyToken T env st) = st /\
  (trace (verifyToken T env st) <> [] ->
   tokenCache st' !! T = tokenCache (final (verifyToken T env st)) !! T ->
   t_lookup env <= t_lookup env' ->
   trace (verifyToken T env' st') = [verify_call T]).
Proof.
  intros Hreach Hneg.
  pose proof (verifyToken_negative T env st Hneg) as Hsame.
  split; [by apply reachable_positive|].
  split; [rewrite Hsame; by apply reachable_positive|].
  split.
  { intros. apply reachable_positive.
    exact (transitivity Hreach (handle_fetch_steps _ _ _ _ _ _ _)). }
  split.
  { intros. apply reachable_positive.
    exact (transitivity Hreach (handle_usage_steps _ _ _ _)). }
  split; [exact Hsame|].
  intros Hcalled Hentry Hlater. rewrite Hsame in Hentry.
  destruct (verifyToken_called T env st Hcalled) as (Hne & Hold & _).
  rewrite verifyToken_miss; [apply verifyToken_remote_trace|done|].
  intros c Hc. rewrite Hentry in Hc. specialize (Hold c Hc). lia.
Qed.

Lemma negative_results_never_cached_witness :
  reachable initial /\
  VerifyResponse.valid (value (verifyToken "tok" env_revoked initial)) = false /\
  cache_positive (final (verifyToken "tok" env_revoked initial)) /\
  final (verifyToken "tok" env_revoked initial) = initial /\
  trace (verifyToken "tok" env_revoked_again
           (final (verifyToken "tok" env_revoked initial)))
    = [verify_call "tok"].
Proof.
  assert (Hreach : reachable initial) by apply rtc_refl.
  destruct (negative_results_never_cached "tok" env_revoked env_revoked_again
              initial (final (verifyToken "tok" env_revoked initial))
              Hreach eq_refl)
    as (_ & Hpos & _ & _ & Hsame & Hagain).
  split; [exact Hreach|]. split; [reflexivity|].
  split; [exact Hpos|]. split; [exact Hsame|].
  apply Hagain; [vm_compute; discriminate|reflexivity|vm_compute; discriminate].
Defined.

(** ** Fetch handler *)

Section Router.

Variable REGION : string.
Variable URL_hostname : string -> option string.
Variable toUpperCase : string -> string.
Variable toISOString : Z -> string.

Local Abbreviation handle :=
  (handle_fetch REGION URL_hostname toUpperCase toISOString).

(** An accepted request reaches the outbound call. *)
Lemma handle_fetch_accepted req env st token body url hostname :
  accepted URL_hostname req env st token body url hostname ->
  handle req env st
  = forward REGION toISOString (value (verifyToken token (verify_env env) st)) url hostname
      (effective_method toUpperCase (FetchRequest.method body))
      (FetchRequest.headers body ∪ {["User-Agent" := "KeyFetch/1.0"]})
      (outbound_body (effective_method toUpperCase (FetchRequest.method body))
         (FetchRequest.body body))
      (effective_timeout (FetchRequest.timeout body))
      env (verifyToken token (verify_env env) st).
Proof.
  intros [Hb Hv Ha Hj Hu Hne Hp Hh Hs]. unfold handle_fetch.
  rewrite Hb, Hv, Hj, Hu, Hp, Hh. simpl.
  rewrite !bool_decide_eq_false_2 by (done || lia). done.
Qed.

(** A reply sent right after the verification stops before the outbound call. *)
Lemma reply_turned_away (r : Response) token env st :
  turned_away st (reply r (verifyToken token env st)).
Proof.
  split; simpl.
  - apply verifyToken_ledger.
  - done.
  - destruct (verifyToken_trace token env st) as [-> | ->];
      [constructor|]. repeat constructor. by exists token.
Qed.

(** Every run of the fetch handler either stops before the outbound call or
    belongs to an accepted request. *)
Lemma handle_fetch_cases req env st :
  turned_away st (handle req env st) \/
  exists token body url hostname,
    accepted URL_hostname req env st token body url hostname.
Proof.
  unfold handle_fetch, onError.
  destruct (bearer (authorization req)) as [token|] eqn:Hb;
    [|left; split; simpl; by try constructor].
  destruct (VerifyResponse.valid _) eqn:Hv; simpl;
    [|left; apply reply_turned_away].
  case_bool_decide as Ha; [left; apply reply_turned_away|].
  destruct (json req) as [| |body] eqn:Hj; try (left; apply reply_turned_away).
  destruct (FetchRequest.url body) as [url|] eqn:Hu;
    [|left; apply reply_turned_away].
  case_bool_decide as Hne; [left; apply reply_turned_away|].
  destruct (URL_hostname url) as [hostname|] eqn:Hp;
    [|left; apply reply_turned_away].
  destruct (internal_host hostname) eqn:Hh; [left; apply reply_turned_away|].
  case_bool_decide as Hs; [left; apply reply_turned_away|].
  right. exists token, body, url, hostname. split; try done. lia.
Qed.

(** A payload turned down at a validation gate stops the handler before the
    outbound call, whatever the verification said. *)
Lemma handle_fetch_invalid req env st :
  invalid_payload URL_hostname (json req) ->
  turned_away st (handle req env st).
Proof.
  intros Hinv.
  destruct (handle_fetch_cases req env st)
    as [Haway|(token & body & url & hostname & Hacc)]; [done|].
  destruct Hacc as [_ _ _ Hj Hu Hne Hp Hh _]. rewrite Hj in Hinv.
  inversion Hinv as [|b [Hu'|Hu']|b u Hu' Hp'|b u h Hu' Hp' Hh'];
    subst; rewrite Hu in *; simplify_eq; congruence.
Qed.

(** A flush of a non-empty ledger. *)
Lemma reportUsage_begin_nonempty st :
  pendingUsage st <> [] ->
  reportUsage_begin REGION st
  = mkOutcome (Some (pendingUsage st)) (mkState [] (tokenCache st))
      [UsageCall "keyfetch" REGION (pendingUsage st)].
Proof. unfold reportUsage_begin. by destruct (pendingUsage st). Qed.

(** [forward] on a response of the target, the ledger staying within 10000. *)
Lemma forward_within_cap auth url hostname method headers body timeout env v
    status hs text :
  upstream env = Responded status hs text ->
  Z.of_nat (length (pendingUsage (final v))) < 10000 ->
  forward REGION toISOString auth url hostname method headers body timeout env v
  = mkOutcome
      (mkHandled
         (Fetched (FetchResponse.mk status (collect_headers hs) text REGION
                     (t_done env - t_start env)))
         None)
      (push (usage_record REGION toISOString auth hostname env status text)
         (final v))
      (trace v ++ [OutboundCall url method headers body timeout]).
Proof.
  intros Hup Hlen. unfold forward. rewrite Hup. simpl.
  rewrite bool_decide_eq_false_2; [done|].
  rewrite length_app. simpl. lia.
Qed.

(** [forward] on a response of the target, the ledger growing beyond 10000. *)
Lemma forward_beyond_cap auth url hostname method headers body timeout env v
    status hs text :
  upstream env = Responded status hs text ->
  10000 <= Z.of_nat (length (pendingUsage (final v))) ->
  let batch :=
    pendingUsage (final v)
    ++ [usage_record REGION toISOString auth hostname env status text] in
  forward REGION toISOString auth url hostname method headers body timeout env v
  = mkOutcome
      (mkHandled
         (Fetched (FetchResponse.mk status (collect_headers hs) text REGION
                     (t_done env - t_start env)))
         (Some batch))
      (mkState [] (tokenCache (final v)))
      (trace v ++ [OutboundCall url method headers body timeout;
                   UsageCall "keyfetch" REGION batch]).
Proof.
  intros Hup Hlen batch. unfold forward. rewrite Hup. simpl.
  rewrite bool_decide_eq_true_2 by (rewrite length_app; simpl; lia).
  rewrite reportUsage_begin_nonempty; [done|].
  simpl. by destruct (pendingUsage (final v)).
Qed.

(** [forward] when the outbound call throws. *)
Lemma forward_threw auth url hostname method headers body timeout env v e :
  upstream env = Threw e ->
  exists error code,
    forward REGION toISOString auth url hostname method headers body timeout env v
    = mkOutcome
        (mkHandled (ForwardFailed error REGION (t_done env - t_start env) code) None)
        (final v)
        (trace v ++ [OutboundCall url method headers body timeout]).
Proof.
  intros Hup. unfold forward. rewrite Hup.
  destruct e as [name message|]; [destruct (_ || _)|]; eauto.
Qed.

(** The calls of [forward]: those of the verification, then the outbound call
    under the timeout it was given, then at most a call to the usage endpoint. *)
Lemma forward_trace auth url hostname method headers body timeout env v :
  exists rest,
    trace (forward REGION toISOString auth url hostname method headers body
             timeout env v)
    = trace v ++ OutboundCall url method headers body timeout :: rest /\
    Forall (fun e => exists service region records,
                       e = UsageCall service region records) rest.
Proof.
  destruct (upstream env) as [status hs text|e] eqn:Hup.
  - destruct (decide (Z.of_nat (length (pendingUsage (final v))) < 10000)).
    + rewrite (forward_within_cap _ _ _ _ _ _ _ _ _ _ _ _ Hup) by done.
      eexists. split; [done|constructor].
    + rewrite (forward_beyond_cap _ _ _ _ _ _ _ _ _ _ _ _ Hup) by lia.
      eexists. split; [done|]. repeat constructor. eauto.
  - destruct (forward_threw auth url hostname method headers body timeout
                env v e Hup) as (error & code & ->).
    eexists. split; [done|constructor].
Qed.

Lemma effective_timeout_max (timeout : option Z) :
  effective_timeout timeout <= 30000.
Proof. unfold effective_timeout. lia. Qed.

(** C1: a request that passes authentication, the credit check and the
    validation, and whose outbound call completes with any HTTP status, adds
    exactly one record to the ledger: the ledger it leaves, together with the
    batch of the flush it may have started, is the old ledger followed by one
    record whose metadata carry the status of the target's response and the
    elapsed time reported in the envelope. A request turned down at a
    validation gate (malformed JSON, missing url, invalid URL, internal host)
    leaves the ledger as it was. *)
Theorem completed_forward_appends_one_record (req : Request) (env : FetchEnv)
    (st : State) :
  (forall token body url hostname status hs text,
      accepted URL_hostname req env st token body url hostname ->
      upstream env = Responded status hs text ->
      let out := handle req env st in
      let auth := value (verifyToken token (verify_env env) st) in
      let record :=
        UsageRecord.mk (VerifyResponse.agent_id auth) "proxy_request" 1
          (toISOString (t_stamp env))
          (Metadata.mk REGION hostname (t_done env - t_start env) status
             (Z.of_nat (String.length text))) in
      pendingUsage (final out) ++ default [] (floating (value out))
        = pendingUsage st ++ [record] /\
      (Z.of_nat (length (pendingUsage st)) < 10000 ->
       pendingUsage (final out) = pendingUsage st ++ [record]) /\
      response (value out)
        = Fetched (FetchResponse.mk status (collect_headers hs) text REGION
                     (t_done env - t_start env)) /\
      Metadata.status (UsageRecord.metadata record) = status /\
      Metadata.latency_ms (UsageRecord.metadata record) = t_done env - t_start env) /\
  (invalid_payload URL_hostname (json req) ->
   pendingUsage (final (handle req env st)) = pendingUsage st /\
   floating (value (handle req env st)) = None /\
   turned_away st (handle req env st)).
Proof.
  split.
  - intros token body url hostname status hs text Hacc Hup out auth record.
    subst out. rewrite (handle_fetch_accepted _ _ _ _ _ _ _ Hacc).
    pose proof (verifyToken_ledger token (verify_env env) st) as Hledger.
    destruct (decide (Z.of_nat (length (pendingUsage st)) < 10000)) as [Hlt|Hge].
    + rewrite (forward_within_cap _ _ _ _ _ _ _ _ _ _ _ _ Hup)
        by (rewrite Hledger; done).
      simpl. rewrite Hledger, app_nil_r. done.
    + rewrite (forward_beyond_cap _ _ _ _ _ _ _ _ _ _ _ _ Hup)
        by (rewrite Hledger; lia).
      simpl. rewrite Hledger. repeat split; done.
  - intros Hinv. pose proof (handle_fetch_invalid req env st Hinv) as Haway.
    split; [apply Haway|]. split; [apply Haway|done].
Qed.

(** C2, as the code has it: when the outbound call of an accepted request is
    aborted by the timeout, the response is a 504 carrying the region and the
    elapsed time, and no usage record is appended: the ledger is the one the
    request found, no flush is started, and the outbound call is the last call
    of the handler. *)
Theorem upstream_timeout_504_without_record (req : Request) (env : FetchEnv)
    (st : State) token body url hostname name message :
  accepted URL_hostname req env st token body url hostname ->
  upstream env = Threw (ErrorObject name message) ->
  name = "TimeoutError" \/ name = "AbortError" ->
  let out := handle req env st in
  response (value out)
    = ForwardFailed "Request timeout" REGION (t_done env - t_start env) 504 /\
  status_code (response (value out)) = 504 /\
  pendingUsage (final out) = pendingUsage st /\
  floating (value out) = None /\
  trace out
    = trace (verifyToken token (verify_env env) st)
      ++ [OutboundCall url
            (effective_method toUpperCase (FetchRequest.method body))
            (FetchRequest.headers body ∪ {["User-Agent" := "KeyFetch/1.0"]})
            (outbound_body
               (effective_method toUpperCase (FetchRequest.method body))
               (FetchRequest.body body))
            (effective_timeout (FetchRequest.timeout body))].
Proof.
  intros Hacc Hup Hname out. subst out.
  rewrite (handle_fetch_accepted _ _ _ _ _ _ _ Hacc).
  unfold forward. rewrite Hup.
  assert (bool_decide (name = "TimeoutError")
          || bool_decide (name = "AbortError") = true) as ->.
  { destruct Hname as [-> | ->]; reflexivity. }
  simpl. repeat split; try done. apply verifyToken_ledger.
Qed.

(** C7, as the code has it: a request whose url parses to the host name
    localhost or 127.0.0.1, or to one starting with 10. or 192.168., never
    reaches the outbound call and appends no usage record; when it passed
    authentication and the credit check, the router answers 403. *)
Theorem internal_host_never_forwarded (req : Request) (env : FetchEnv)
    (st : State) body url hostname :
  json req = Fields body ->
  FetchRequest.url body = Some url ->
  url <> "" ->
  URL_hostname url = Some hostname ->
  hostname = "127.0.0.1" \/ hostname = "localhost" \/
    String.prefix "10." hostname = true \/
    String.prefix "192.168." hostname = true ->
  let out := handle req env st in
  pendingUsage (final out) = pendingUsage st /\
  floating (value out) = None /\
  Forall (fun e => exists token, e = verify_call token) (trace out) /\
  (forall token,
      bearer (authorization req) = Some token ->
      VerifyResponse.valid (value (verifyToken token (verify_env env) st)) = true ->
      VerifyResponse.can_afford (value (verifyToken token (verify_env env) st))
        <> Some false ->
      response (value out) = ErrorJson (Some "Internal URLs not allowed") 403 /\
      status_code (response (value out)) = 403).
Proof.
  intros Hj Hu Hne Hp Hhost out.
  assert (Hint : internal_host hostname = true).
  { unfold internal_host.
    destruct Hhost as [-> | [-> | [Hpre | Hpre]]];
      [reflexivity|reflexivity|rewrite Hpre|rewrite Hpre];
      by rewrite ?orb_true_r. }
  assert (Haway : turned_away st out).
  { apply handle_fetch_invalid. rewrite Hj. by eapply invalid_host. }
  split; [apply Haway|]. split; [apply Haway|]. split; [apply Haway|].
  intros token Hb Hv Ha. subst out. unfold handle_fetch.
  rewrite Hb, Hv, Hj, Hu, Hp, Hint. simpl.
  by rewrite !bool_decide_eq_false_2 by done.
Qed.

(** C8: when the record appended by the fetch handler brings the ledger above
    10000 records, the handler itself starts the flush: the call to the usage
    endpoint, with the whole ledger including the new record, directly
    follows the outbound call in the handler's own calls, the ledger is left
    empty, and the handler returns its 200 envelope with that flush still
    pending, before the usage endpoint has answered. *)
Theorem ledger_cap_forces_flush (req : Request) (env : FetchEnv) (st : State)
    token body url hostname status hs text :
  accepted URL_hostname req env st token body url hostname ->
  upstream env = Responded status hs text ->
  let auth := value (verifyToken token (verify_env env) st) in
  let record := usage_record REGION toISOString auth hostname env status text in
  10000 < Z.of_nat (length (pendingUsage st ++ [record])) ->
  let out := handle req env st in
  floating (value out) = Some (pendingUsage st ++ [record]) /\
  pendingUsage (final out) = [] /\
  trace out
    = trace (verifyToken token (verify_env env) st)
      ++ [OutboundCall url
            (effective_method toUpperCase (FetchRequest.method body))
            (FetchRequest.headers body ∪ {["User-Agent" := "KeyFetch/1.0"]})
            (outbound_body
               (effective_method toUpperCase (FetchRequest.method body))
               (FetchRequest.body body))
            (effective_timeout (FetchRequest.timeout body));
          UsageCall "keyfetch" REGION (pendingUsage st ++ [record])] /\
  response (value out)
    = Fetched (FetchResponse.mk status (collect_headers hs) text REGION
                 (t_done env - t_start env)) /\
  (forall limit ans later,
      pendingUsage
        (reportUsage_settle limit ans (pendingUsage st ++ [record]) later)
      = match ans with
        | UsageAccepted true => pendingUsage later
        | _ =>
            if bool_decide (length (pendingUsage st ++ [record]) <= limit)%nat
            then pendingUsage later ++ pendingUsage st ++ [record]
            else pendingUsage later
        end).
Proof.
  intros Hacc Hup auth record Hcap out. subst out.
  rewrite (handle_fetch_accepted _ _ _ _ _ _ _ Hacc).
  pose proof (verifyToken_ledger token (verify_env env) st) as Hledger.
  rewrite length_app in Hcap. simpl in Hcap.
  rewrite (forward_beyond_cap _ _ _ _ _ _ _ _ _ _ _ _ Hup)
    by (rewrite Hledger; lia).
  simpl. rewrite Hledger. repeat split; try done.
  intros limit [|b|[|]] later; simpl; unfold requeue;
    by try case_bool_decide.
Qed.

(** C9: every outbound call of the fetch handler runs under the timeout
    [Math.min(body.timeout || 30000, 30000)] of the request's payload, which
    is at most 30000 ms whatever the caller asked for. *)
Theorem outbound_timeout_at_most_30000 (req : Request) (env : FetchEnv)
    (st : State) url method headers body timeout :
  OutboundCall url method headers body timeout ∈ trace (handle req env st) ->
  timeout <= 30000 /\
  exists payload,
    json req = Fields payload /\
    timeout = effective_timeout (FetchRequest.timeout payload).
Proof.
  intros Hin.
  destruct (handle_fetch_cases req env st)
    as [Haway|(token & payload & url' & hostname & Hacc)].
  - destruct Haway as [_ _ Htr]. rewrite Forall_forall in Htr.
    destruct (Htr _ Hin) as [t Ht]. discriminate.
  - rewrite (handle_fetch_accepted _ _ _ _ _ _ _ Hacc) in Hin.
    match type of Hin with
    | _ ∈ trace (forward _ _ ?a ?u ?h ?m ?hd ?b ?t ?e ?v) =>
        destruct (forward_trace a u h m hd b t e v) as (rest & Htrace & Hrest)
    end.
    rewrite Htrace in Hin.
    apply elem_of_app in Hin as [Hin|Hin].
    + destruct (verifyToken_trace token (verify_env env) st) as [Hv|Hv];
        rewrite Hv in Hin; [by apply elem_of_nil in Hin|].
      apply list_elem_of_singleton in Hin. discriminate.
    + apply elem_of_cons in Hin as [Heq|Hin].
      * injection Heq as -> -> -> -> ->.
        split; [apply effective_timeout_max|].
        exists payload. split; [apply Hacc|done].
      * rewrite Forall_forall in Hrest.
        destruct (Hrest _ Hin) as (sv & rg & rs & Hu). discriminate.
Qed.

End Router.

(** The sample request for example.com passes every gate, whatever the
    target does and whatever the ledger holds. *)
Lemma sample_accepted (up : Upstream) (ledger : list UsageRecord.t) :
  accepted sample_hostname (get_request "https://example.com/data")
    (fetch_env env_ok up) (mkState ledger ∅) "tok"
    (plain_body "https://example.com/data") "https://example.com/data"
    "example.com".
Proof.
  split; reflexivity || discriminate.
Qed.

Lemma completed_forward_appends_one_record_witness :
  accepted sample_hostname (get_request "https://example.com/data")
    (fetch_env env_ok (Responded 404 [] "gone")) initial "tok"
    (plain_body "https://example.com/data") "https://example.com/data"
    "example.com" /\
  upstream (fetch_env env_ok (Responded 404 [] "gone")) = Responded 404 [] "gone" /\
  pendingUsage
    (final (sample_fetch (get_request "https://example.com/data")
              (fetch_env env_ok (Responded 404 [] "gone")) initial))
  = [UsageRecord.mk (Some "agent-1") "proxy_request" 1 "1970-01-01T00:00:00.000Z"
       (Metadata.mk "eu-frankfurt" "example.com" 50 404 4)] /\
  invalid_payload sample_hostname (json (mkRequest (Some "Bearer tok") Malformed)) /\
  pendingUsage
    (final (sample_fetch (mkRequest (Some "Bearer tok") Malformed)
              (fetch_env env_ok (Responded 404 [] "gone")) initial))
  = [].
Proof.
  pose proof (sample_accepted (Responded 404 [] "gone") []) as Hacc.
  assert (Hbad : invalid_payload sample_hostname
                   (json (mkRequest (Some "Bearer tok") Malformed)))
    by constructor.
  split; [exact Hacc|]. split; [reflexivity|]. split; [|split; [exact Hbad|]].
  - destruct (completed_forward_appends_one_record "eu-frankfurt"
                sample_hostname sample_upper sample_iso
                (get_request "https://example.com/data")
                (fetch_env env_ok (Responded 404 [] "gone")) initial)
      as [Hdone _].
    destruct (Hdone _ _ _ _ _ _ _ Hacc eq_refl) as (_ & Hledger & _).
    apply Hledger. reflexivity.
  - destruct (completed_forward_appends_one_record "eu-frankfurt"
                sample_hostname sample_upper sample_iso
                (mkRequest (Some "Bearer tok") Malformed)
                (fetch_env env_ok (Responded 404 [] "gone")) initial)
      as [_ Hstop].
    destruct (Hstop Hbad) as (Hledger & _). exact Hledger.
Defined.

(** C2 fails on the code: the sample request for example.com is accepted, its
    outbound call is aborted by the timeout, the router answers 504, and the
    ledger holds no record afterwards. *)
Lemma timeout_appends_record_counterexample :
  upstream (fetch_env env_ok timed_out) = timed_out /\
  status_code
    (response (value (sample_fetch (get_request "https://example.com/data")
                        (fetch_env env_ok timed_out) initial))) = 504 /\
  pendingUsage
    (final (sample_fetch (get_request "https://example.com/data")
              (fetch_env env_ok timed_out) initial)) = [] /\
  floating
    (value (sample_fetch (get_request "https://example.com/data")
              (fetch_env env_ok timed_out) initial)) = None /\
  ~ exists record,
      pendingUsage
        (final (sample_fetch (get_request "https://example.com/data")
                  (fetch_env env_ok timed_out) initial))
      ++ default []
           (floating
              (value (sample_fetch (get_request "https://example.com/data")
                        (fetch_env env_ok timed_out) initial)))
      = pendingUsage initial ++ [record].
Proof.
  repeat split; try reflexivity.
  intros [record Hrecord]. vm_compute in Hrecord. discriminate.
Qed.

Lemma upstream_timeout_504_without_record_witness :
  accepted sample_hostname (get_request "https://example.com/data")
    (fetch_env env_ok timed_out) two_agents "tok"
    (plain_body "https://example.com/data") "https://example.com/data"
    "example.com" /\
  upstream (fetch_env env_ok timed_out)
    = Threw (ErrorObject "TimeoutError" "The operation was aborted due to timeout") /\
  response (value (sample_fetch (get_request "https://example.com/data")
                     (fetch_env env_ok timed_out) two_agents))
    = ForwardFailed "Request timeout" "eu-frankfurt" 50 504 /\
  pendingUsage (final (sample_fetch (get_request "https://example.com/data")
                         (fetch_env env_ok timed_out) two_agents))
    = pendingUsage two_agents.
Proof.
  pose proof (sample_accepted timed_out (pendingUsage two_agents)) as Hacc.
  split; [exact Hacc|]. split; [reflexivity|].
  destruct (upstream_timeout_504_without_record "eu-frankfurt" sample_hostname
              sample_upper sample_iso (get_request "https://example.com/data")
              (fetch_env env_ok timed_out) two_agents _ _ _ _ _ _
              Hacc eq_refl (or_introl eq_refl))
    as (Hresp & _ & Hledger & _).
  split; [exact Hresp|exact Hledger].
Defined.

(** C7 fails on the code as stated: a request for an internal host that
    carries no Authorization header is answered 401, not 403. *)
Lemma internal_host_without_token_counterexample :
  sample_hostname "http://127.0.0.1/admin" = Some "127.0.0.1" /\
  status_code
    (response (value (sample_fetch (anonymous_request "http://127.0.0.1/admin")
                        (fetch_env env_ok (Responded 200 [] "hello")) initial)))
  = 401 /\
  status_code
    (response (value (sample_fetch (anonymous_request "http://127.0.0.1/admin")
                        (fetch_env env_ok (Responded 200 [] "hello")) initial)))
  <> 403.
Proof. repeat split; try reflexivity. vm_compute. discriminate. Qed.

Lemma internal_host_never_forwarded_witness :
  json (get_request "http://127.0.0.1/admin")
    = Fields (plain_body "http://127.0.0.1/admin") /\
  FetchRequest.url (plain_body "http://127.0.0.1/admin")
    = Some "http://127.0.0.1/admin" /\
  "http://127.0.0.1/admin" <> "" /\
  sample_hostname "http://127.0.0.1/admin" = Some "127.0.0.1" /\
  pendingUsage (final (sample_fetch (get_request "http://127.0.0.1/admin")
                         (fetch_env env_ok (Responded 200 [] "hello")) two_agents))
    = pendingUsage two_agents /\
  trace (sample_fetch (get_request "http://127.0.0.1/admin")
           (fetch_env env_ok (Responded 200 [] "hello")) two_agents)
    = [verify_call "tok"] /\
  status_code
    (response (value (sample_fetch (get_request "http://127.0.0.1/admin")
                        (fetch_env env_ok (Responded 200 [] "hello")) two_agents)))
  = 403.
Proof.
  assert (Hne : "http://127.0.0.1/admin" <> "") by discriminate.
  destruct (internal_host_never_forwarded "eu-frankfurt" sample_hostname
              sample_upper sample_iso (get_request "http://127.0.0.1/admin")
              (fetch_env env_ok (Responded 200 [] "hello")) two_agents
              (plain_body "http://127.0.0.1/admin") "http://127.0.0.1/admin"
              "127.0.0.1" eq_refl eq_refl Hne eq_refl (or_introl eq_refl))
    as (Hledger & _ & _ & Hstatus).
  split; [reflexivity|]. split; [reflexivity|]. split; [exact Hne|].
  split; [reflexivity|]. split; [exact Hledger|]. split; [reflexivity|].
  apply (Hstatus "tok"); reflexivity || discriminate.
Defined.

Lemma ledger_cap_forces_flush_witness :
  accepted sample_hostname (get_request "https://example.com/data")
    (fetch_env env_ok (Responded 200 [] "hello")) full_ledger "tok"
    (plain_body "https://example.com/data") "https://example.com/data"
    "example.com" /\
  upstream (fetch_env env_ok (Responded 200 [] "hello")) = Responded 200 [] "hello" /\
  10000 < Z.of_nat (length (pendingUsage full_ledger
               ++ [usage_record "eu-frankfurt" sample_iso agent_ok "example.com"
                     (fetch_env env_ok (Responded 200 [] "hello")) 200 "hello"])) /\
  floating (value (sample_fetch (get_request "https://example.com/data")
                     (fetch_env env_ok (Responded 200 [] "hello")) full_ledger))
    = Some (pendingUsage full_ledger
            ++ [usage_record "eu-frankfurt" sample_iso agent_ok "example.com"
                  (fetch_env env_ok (Responded 200 [] "hello")) 200 "hello"]) /\
  pendingUsage (final (sample_fetch (get_request "https://example.com/data")
                         (fetch_env env_ok (Responded 200 [] "hello")) full_ledger))
    = [].
Proof.
  pose proof (sample_accepted (Responded 200 [] "hello") (pendingUsage full_ledger))
    as Hacc.
  assert (Hcap : 10000 < Z.of_nat (length (pendingUsage full_ledger
               ++ [usage_record "eu-frankfurt" sample_iso agent_ok "example.com"
                     (fetch_env env_ok (Responded 200 [] "hello")) 200 "hello"])))
    by (vm_compute; reflexivity).
  split; [exact Hacc|]. split; [reflexivity|]. split; [exact Hcap|].
  destruct (ledger_cap_forces_flush "eu-frankfurt" sample_hostname sample_upper
              sample_iso (get_request "https://example.com/data")
              (fetch_env env_ok (Responded 200 [] "hello")) full_ledger
              _ _ _ _ _ _ _ Hacc eq_refl Hcap)
    as (Hfloating & Hledger & _).
  split; [exact Hfloating|exact Hledger].
Defined.

Lemma outbound_timeout_at_most_30000_witness :
  OutboundCall "https://example.com/data" "GET"
    (FetchRequest.headers slow_body ∪ {["User-Agent" := "KeyFetch/1.0"]}) None 30000
    ∈ trace (sample_fetch slow_request
               (fetch_env env_ok (Responded 200 [] "hello")) initial) /\
  FetchRequest.timeout slow_body = Some 60000 /\
  30000 <= 30000.
Proof.
  assert (Hin : OutboundCall "https://example.com/data" "GET"
                  (FetchRequest.headers slow_body ∪ {["User-Agent" := "KeyFetch/1.0"]})
                  None 30000
                ∈ trace (sample_fetch slow_request
                           (fetch_env env_ok (Responded 200 [] "hello")) initial)).
  { apply list_elem_of_lookup. exists 1%nat. reflexivity. }
  split; [exact Hin|]. split; [reflexivity|].
  exact (proj1 (outbound_timeout_at_most_30000 "eu-frankfurt" sample_hostname
                  sample_upper sample_iso slow_request
                  (fetch_env env_ok (Responded 200 [] "hello")) initial
                  _ _ _ _ _ Hin)).
Defined.

(** ** Usage ledger *)

Lemma pushes_ledger (rs : list UsageRecord.t) (st : State) :
  pendingUsage (foldl (fun s r => push r s) st rs) = pendingUsage st ++ rs.
Proof.
  revert st. induction rs as [|r rs IH]; intros st; simpl.
  - by rewrite app_nil_r.
  - rewrite IH. simpl. by rewrite <- app_assoc.
Qed.

(** The ledger a flush cycle leaves behind. *)
Lemma flush_cycle_ledger region limit c st :
  pendingUsage (final (flush_cycle region limit c st))
  = if failed (settled c)
       && bool_decide (length (pendingUsage st) <= limit)%nat
    then arrivals c ++ pendingUsage st
    else arrivals c.
Proof.
  unfold flush_cycle, reportUsage_begin.
  destruct (pendingUsage st) as [|r rs] eqn:Hp; simpl.
  - rewrite pushes_ledger, Hp. simpl. rewrite app_nil_r.
    by destruct (failed _ && _).
  - unfold reportUsage_settle, requeue.
    destruct (settled c) as [|b|[|]]; simpl; try case_bool_decide; simpl;
      by rewrite pushes_ledger.
Qed.

(** The batch a flush cycle submits is the ledger it found. *)
Lemma flush_cycle_batch region limit c st :
  default [] (value (flush_cycle region limit c st)) = pendingUsage st.
Proof.
  unfold flush_cycle, reportUsage_begin.
  by destruct (pendingUsage st) as [|r rs] eqn:Hp.
Qed.

(** Failed cycles keep every record, old and new, in the ledger, as long as
    all of them together can be spread into one call. *)
Lemma run_failed_cycles region limit cs st :
  Forall (fun c => failed (settled c) = true) cs ->
  (length (pendingUsage st) + length (concat (arrivals <$> cs)) <= limit)%nat ->
  pendingUsage (run_cycles region limit cs st)
  ≡ₚ pendingUsage st ++ concat (arrivals <$> cs).
Proof.
  intros Hcs. revert st.
  induction Hcs as [|c cs Hc _ IH]; intros st Hfit; simpl.
  - by rewrite app_nil_r.
  - rewrite fmap_cons, concat_cons, length_app in Hfit.
    assert (Hledger : pendingUsage (final (flush_cycle region limit c st))
                      = arrivals c ++ pendingUsage st).
    { rewrite flush_cycle_ledger, Hc.
      by rewrite bool_decide_eq_true_2 by lia. }
    unfold run_cycles in *. simpl. rewrite IH.
    + rewrite Hledger, (Permutation_app_comm (arrivals c)).
      by rewrite <- app_assoc.
    + rewrite Hledger, length_app. lia.
Qed.

(** Within the spread limit no cycle loses or repeats a record: a flush
    takes the whole ledger as its batch and leaves the ledger empty at the
    moment its call is issued, so records arriving while the call is in
    flight are not in the batch; and as long as the records fit into one
    spread call, after any number of failed cycles the batch of a successful
    cycle is, as a multiset, the ledger of the start together with
    everything that arrived during the failed cycles. *)
Lemma flush_requeues_within_spread_limit (region : string) (limit : nat)
    (st : State) (cs : list Cycle) (last : Cycle) :
  pendingUsage st <> [] ->
  Forall (fun c => failed (settled c) = true) cs ->
  (length (pendingUsage st) + length (concat (arrivals <$> cs)) <= limit)%nat ->
  settled last = UsageAccepted true ->
  (reportUsage_begin region st
   = mkOutcome (Some (pendingUsage st)) (mkState [] (tokenCache st))
       [UsageCall "keyfetch" region (pendingUsage st)]) /\
  (forall c,
      value (flush_cycle region limit c st) = Some (pendingUsage st) /\
      trace (flush_cycle region limit c st)
        = [UsageCall "keyfetch" region (pendingUsage st)]) /\
  (let before_last := run_cycles region limit cs st in
   let submitted :=
     default [] (value (flush_cycle region limit last before_last)) in
   submitted ≡ₚ pendingUsage st ++ concat (arrivals <$> cs) /\
   (NoDup (pendingUsage st ++ concat (arrivals <$> cs)) -> NoDup submitted) /\
   pendingUsage (final (flush_cycle region limit last before_last))
     = arrivals last).
Proof.
  intros Hne Hcs Hfit Hlast.
  assert (Hbegin : reportUsage_begin region st
                   = mkOutcome (Some (pendingUsage st)) (mkState [] (tokenCache st))
                       [UsageCall "keyfetch" region (pendingUsage st)]).
  { unfold reportUsage_begin. by destruct (pendingUsage st). }
  split; [exact Hbegin|]. split.
  - intros c. unfold flush_cycle. by rewrite Hbegin.
  - simpl. rewrite flush_cycle_batch.
    pose proof (run_failed_cycles region limit cs st Hcs Hfit) as Hperm.
    split; [exact Hperm|]. split.
    + intros Hnd. by rewrite Hperm.
    + rewrite flush_cycle_ledger. by rewrite Hlast.
Qed.

(** C3, which the code misses beyond the spread limit: a flush takes the
    whole ledger as its batch before its call is issued; when the submission
    fails (the call throws, the endpoint refuses, or its answer cannot be
    read) and the batch fits into the arguments of one call, exactly that
    batch is appended back, after the records that arrived in the meantime.
    The re-queue [pendingUsage.push(...records)] spreads the batch into the
    arguments of one call, though: when the batch has more records than the
    engine takes as arguments, nothing is appended back, the ledger holds
    only what arrived in the meantime, and the next flush submits only that.
    The records of the batch are lost. *)
Theorem failed_flush_requeues_up_to_spread_limit (region : string)
    (limit : nat) (c : Cycle) (st : State) :
  pendingUsage st <> [] ->
  failed (settled c) = true ->
  value (flush_cycle region limit c st) = Some (pendingUsage st) /\
  trace (flush_cycle region limit c st)
    = [UsageCall "keyfetch" region (pendingUsage st)] /\
  ((length (pendingUsage st) <= limit)%nat ->
   pendingUsage (final (flush_cycle region limit c st))
   = arrivals c ++ pendingUsage st) /\
  ((limit < length (pendingUsage st))%nat ->
   pendingUsage (final (flush_cycle region limit c st)) = arrivals c /\
   forall next,
     default []
       (value (flush_cycle region limit next
                 (final (flush_cycle region limit c st))))
     = arrivals c).
Proof.
  intros Hne Hfailed.
  split; [|split; [|split]].
  - unfold flush_cycle, reportUsage_begin. by destruct (pendingUsage st).
  - unfold flush_cycle, reportUsage_begin. by destruct (pendingUsage st).
  - intros Hfits. rewrite flush_cycle_ledger, Hfailed.
    by rewrite bool_decide_eq_true_2 by lia.
  - intros Hbig.
    assert (Hledger : pendingUsage (final (flush_cycle region limit c st))
                      = arrivals c).
    { rewrite flush_cycle_ledger, Hfailed.
      by rewrite bool_decide_eq_false_2 by lia. }
    split; [exact Hledger|]. intros next. by rewrite flush_cycle_batch.
Qed.

(** ** Usage statistics *)

(** C10: for an authenticated request, [pending_records] of the usage
    response is the number of pending ledger records whose [agent_id] is the
    verified [agent_id] of the requester, whereas the health response reports
    the length of the whole ledger. *)
Theorem usage_counts_own_pending_records (REGION : string)
    (authHeader : option string) (env : VerifyEnv) (st : State) (token : string) :
  bearer authHeader = Some token ->
  VerifyResponse.valid (value (verifyToken token env st)) = true ->
  let auth := value (verifyToken token env st) in
  let own :=
    filter (fun r => UsageRecord.agent_id r = VerifyResponse.agent_id auth)
      (pendingUsage st) in
  response (value (handle_usage REGION authHeader env st))
    = UsageStats (VerifyResponse.agent_id auth) (VerifyResponse.email auth)
        (VerifyResponse.balance auth) REGION (length own)
        (VerifyResponse.cost_per_unit auth) /\
  (length own <= length (pendingUsage st))%nat /\
  (forall toISOString now,
      handle_health REGION toISOString now st
      = Health "ok" REGION (toISOString now) (length (pendingUsage st))).
Proof.
  intros Hb Hv auth own. unfold handle_usage. rewrite Hb, Hv. simpl.
  rewrite verifyToken_ledger. split; [done|]. split; [|done].
  apply length_filter.
Qed.

Lemma failed_flush_requeues_up_to_spread_limit_witness :
  pendingUsage overgrown_ledger <> [] /\
  failed (settled (mkCycle [sample_record "agent-4" 500] (UsageRefused true)))
    = true /\
  (sample_spread_limit < length (pendingUsage overgrown_ledger))%nat /\
  value (flush_cycle "eu-frankfurt" sample_spread_limit
           (mkCycle [sample_record "agent-4" 500] (UsageRefused true))
           overgrown_ledger)
    = Some (pendingUsage overgrown_ledger) /\
  pendingUsage
    (final (flush_cycle "eu-frankfurt" sample_spread_limit
              (mkCycle [sample_record "agent-4" 500] (UsageRefused true))
              overgrown_ledger))
    = [sample_record "agent-4" 500] /\
  pendingUsage two_agents <> [] /\
  (length (pendingUsage two_agents) <= sample_spread_limit)%nat /\
  pendingUsage
    (final (flush_cycle "eu-frankfurt" sample_spread_limit
              (mkCycle [sample_record "agent-4" 500] (UsageRefused true))
              two_agents))
    = [sample_record "agent-4" 500] ++ pendingUsage two_agents.
Proof.
  assert (Hlen : length (pendingUsage overgrown_ledger) = Z.to_nat 200000)
    by apply length_replicate.
  assert (Hne : pendingUsage overgrown_ledger <> []).
  { intros Hnil. rewrite Hnil in Hlen.
    change (length (@nil UsageRecord.t)) with 0%nat in Hlen. lia. }
  assert (Hbig : (sample_spread_limit < length (pendingUsage overgrown_ledger))%nat)
    by (rewrite Hlen; unfold sample_spread_limit; lia).
  assert (Hne' : pendingUsage two_agents <> []) by discriminate.
  assert (Hfits : (length (pendingUsage two_agents) <= sample_spread_limit)%nat)
    by (change (length (pendingUsage two_agents)) with 2%nat;
        unfold sample_spread_limit; lia).
  destruct (failed_flush_requeues_up_to_spread_limit "eu-frankfurt"
              sample_spread_limit
              (mkCycle [sample_record "agent-4" 500] (UsageRefused true))
              overgrown_ledger Hne eq_refl)
    as (Hbatch & _ & _ & Hlost).
  destruct (failed_flush_requeues_up_to_spread_limit "eu-frankfurt"
              sample_spread_limit
              (mkCycle [sample_record "agent-4" 500] (UsageRefused true))
              two_agents Hne' eq_refl)
    as (_ & _ & Hback & _).
  split; [exact Hne|]. split; [reflexivity|]. split; [exact Hbig|].
  split; [exact Hbatch|]. split; [exact (proj1 (Hlost Hbig))|].
  split; [exact Hne'|]. split; [exact Hfits|exact (Hback Hfits)].
Defined.

Lemma usage_counts_own_pending_records_witness :
  bearer (Some "Bearer tok") = Some "tok" /\
  VerifyResponse.valid (value (verifyToken "tok" env_ok two_agents)) = true /\
  response (value (handle_usage "eu-frankfurt" (Some "Bearer tok") env_ok two_agents))
    = UsageStats (Some "agent-1") (Some "agent@example.com") (Some 100)
        "eu-frankfurt" 1 (Some 2) /\
  handle_health "eu-frankfurt" sample_iso 0 two_agents
    = Health "ok" "eu-frankfurt" "1970-01-01T00:00:00.000Z" 2.
Proof.
  destruct (usage_counts_own_pending_records "eu-frankfurt" (Some "Bearer tok")
              env_ok two_agents "tok" eq_refl eq_refl)
    as (Hstats & _ & Hhealth).
  split; [reflexivity|]. split; [reflexivity|].
  split; [exact Hstats|exact (Hhealth sample_iso 0)].
Defined.

(** ** Authentication gate *)

Lemma prefix_slice (p s : string) :
  String.prefix p s = true -> s = p +:+ slice (String.length p) s.
Proof.
  revert s. induction p as [|a p IH]; intros s Hp.
  - by destruct s.
  - destruct s as [|b s]; [done|].
    cbn [String.prefix] in Hp.
    destruct (Ascii.ascii_dec a b) as [->|]; [|done].
    change (String b p +:+ slice (String.length (String b p)) (String b s))
      with (String b (p +:+ slice (String.length p) s)).
    by rewrite <- IH.
Qed.

(** A header from which a token is extracted is the scheme, one space, and
    that token. *)
Lemma bearer_inv (authHeader : option string) (token : string) :
  bearer authHeader = Some token -> authHeader = Some ("Bearer " +:+ token).
Proof.
  unfold bearer. destruct authHeader as [h|]; [|done].
  destruct (String.prefix "Bearer " h) eqn:Hp; [|done].
  intros [= <-]. f_equal. exact (prefix_slice "Bearer " h Hp).
Qed.

(** X1: the handlers extract a token exactly from the headers that consist of
    the scheme [Bearer], one space and the token; the token is the rest of
    the header, unchanged. *)
Theorem bearer_exactly_after_scheme (authHeader : option string) (token : string) :
  bearer authHeader = Some token <-> authHeader = Some ("Bearer " +:+ token).
Proof.
  split; [apply bearer_inv|]. intros ->. apply bearer_token.
Qed.

Lemma bearer_exactly_after_scheme_witness :
  bearer (Some "Bearer sk-live-1") = Some "sk-live-1" /\
  bearer (Some "bearer sk-live-1") = None /\
  (bearer (Some "Bearer  padded") = Some " padded"
   <-> Some "Bearer  padded" = Some ("Bearer " +:+ " padded")).
Proof.
  split; [exact (proj2 (bearer_exactly_after_scheme (Some "Bearer sk-live-1")
                          "sk-live-1") eq_refl)|].
  split; [reflexivity|].
  exact (bearer_exactly_after_scheme (Some "Bearer  padded") " padded").
Defined.

Section Gates.

Variable REGION : string.
Variable URL_hostname : string -> option string.
Variable toUpperCase : string -> string.
Variable toISOString : Z -> string.

Local Abbreviation handle :=
  (handle_fetch REGION URL_hostname toUpperCase toISOString).

(** X2: a request whose Authorization header is not [Bearer] followed by a
    non-empty token is answered 401 by the fetch and the usage handler
    without any network call and without any change of the state. *)
Theorem no_token_no_call (req : Request) (env : FetchEnv) (venv : VerifyEnv)
    (st : State) :
  (forall token, token <> "" ->
                 authorization req <> Some ("Bearer " +:+ token)) ->
  status_code (response (value (handle req env st))) = 401 /\
  handle req env st
    = mkOutcome (mkHandled (response (value (handle req env st))) None) st [] /\
  status_code
    (response (value (handle_usage REGION (authorization req) venv st))) = 401 /\
  final (handle_usage REGION (authorization req) venv st) = st /\
  trace (handle_usage REGION (authorization req) venv st) = [].
Proof.
  intros Hnone. unfold handle_fetch, handle_usage.
  destruct (bearer (authorization req)) as [token|] eqn:Hb; [|done].
  apply bearer_inv in Hb.
  destruct (decide (token = "")) as [->|Hne]; [|by destruct (Hnone token Hne)].
  unfold verifyToken. by rewrite !bool_decide_eq_true_2 by done.
Qed.

(** X3: the fetch handler answers 402 exactly when the token was verified as
    valid with [can_afford] explicitly false; the reply then carries the
    balance and the unit cost of the verification, and the handler stopped
    before the outbound call. A verification without [can_afford] never
    leads to 402. *)
Theorem insufficient_credits_exactly (req : Request) (env : FetchEnv) (st : State) :
  (status_code (response (value (handle req env st))) = 402 <->
   exists token,
     bearer (authorization req) = Some token /\
     VerifyResponse.valid (value (verifyToken token (verify_env env) st)) = true /\
     VerifyResponse.can_afford (value (verifyToken token (verify_env env) st))
       = Some false) /\
  (forall token,
      bearer (authorization req) = Some token ->
      VerifyResponse.valid (value (verifyToken token (verify_env env) st)) = true ->
      VerifyResponse.can_afford (value (verifyToken token (verify_env env) st))
        = Some false ->
      response (value (handle req env st))
        = InsufficientCredits
            (VerifyResponse.balance (value (verifyToken token (verify_env env) st)))
            (VerifyResponse.cost_per_unit
               (value (verifyToken token (verify_env env) st))) /\
      turned_away st (handle req env st)).
Proof.
  split.
  - split.
    + unfold handle_fetch, onError, reply, forward.
      destruct (bearer (authorization req)) as [token|] eqn:Hb; [|done].
      destruct (VerifyResponse.valid _) eqn:Hv; [|done]. simpl.
      case_bool_decide as Ha; [intros _; by exists token|].
      repeat (case_bool_decide || case_match); simpl; try done;
        destruct (_ || _); done.
    + intros (token & Hb & Hv & Ha). unfold handle_fetch.
      rewrite Hb, Hv, Ha. done.
  - intros token Hb Hv Ha. unfold handle_fetch. rewrite Hb, Hv, Ha. simpl.
    split; [done|]. apply reply_turned_away.
Qed.

End Gates.

(** ** Calls and replies of the fetch handler *)

(** Membership of a number in a list of literals, and its refutation. *)
Ltac listed :=
  solve [repeat first [apply list_elem_of_here | apply list_elem_of_further]].

Ltac unlisted H :=
  repeat (apply elem_of_cons in H as [H|H]; [discriminate H|]);
  by apply elem_of_nil in H.

Section Calls.

Variable REGION : string.
Variable URL_hostname : string -> option string.
Variable toUpperCase : string -> string.
Variable toISOString : Z -> string.

Local Abbreviation handle :=
  (handle_fetch REGION URL_hostname toUpperCase toISOString).

(** The outbound call of an accepted request. *)
Local Abbreviation outbound_of body url :=
  (OutboundCall url
     (effective_method toUpperCase (FetchRequest.method body))
     (FetchRequest.headers body ∪ {["User-Agent" := "KeyFetch/1.0"]})
     (outbound_body (effective_method toUpperCase (FetchRequest.method body))
        (FetchRequest.body body))
     (effective_timeout (FetchRequest.timeout body))).

(** The run of an accepted request, by what the target did and by the size
    of the ledger. *)
Lemma handle_fetch_accepted_cases req env st token body url hostname :
  accepted URL_hostname req env st token body url hostname ->
  let v := verifyToken token (verify_env env) st in
  (exists status hs text,
      upstream env = Responded status hs text /\
      Z.of_nat (length (pendingUsage st)) < 10000 /\
      handle req env st
      = mkOutcome
          (mkHandled
             (Fetched (FetchResponse.mk status (collect_headers hs) text REGION
                         (t_done env - t_start env)))
             None)
          (push (usage_record REGION toISOString (value v) hostname env status text)
             (final v))
          (trace v ++ [outbound_of body url])) \/
  (exists status hs text,
      upstream env = Responded status hs text /\
      10000 <= Z.of_nat (length (pendingUsage st)) /\
      handle req env st
      = mkOutcome
          (mkHandled
             (Fetched (FetchResponse.mk status (collect_headers hs) text REGION
                         (t_done env - t_start env)))
             (Some (pendingUsage st
                    ++ [usage_record REGION toISOString (value v) hostname env
                          status text])))
          (mkState [] (tokenCache (final v)))
          (trace v
           ++ [outbound_of body url;
               UsageCall "keyfetch" REGION
                 (pendingUsage st
                  ++ [usage_record REGION toISOString (value v) hostname env
                        status text])])) \/
  (exists error code,
      code ∈ [504; 502; 500] /\
      handle req env st
      = mkOutcome
          (mkHandled (ForwardFailed error REGION (t_done env - t_start env) code)
             None)
          (final v) (trace v ++ [outbound_of body url])).
Proof.
  intros Hacc v. subst v.
  rewrite (handle_fetch_accepted _ _ _ _ _ _ _ _ _ _ _ Hacc).
  pose proof (verifyToken_ledger token (verify_env env) st) as Hledger.
  destruct (upstream env) as [status hs text|e] eqn:Hup.
  - destruct (decide (Z.of_nat (length (pendingUsage st)) < 10000)).
    + left. exists status, hs, text. split; [done|]. split; [done|].
      apply forward_within_cap; [done|by rewrite Hledger].
    + right; left. exists status, hs, text. split; [done|]. split; [lia|].
      rewrite <- Hledger. apply forward_beyond_cap; [done|rewrite Hledger; lia].
  - right; right. unfold forward. rewrite Hup.
    destruct e as [name message|]; [destruct (_ || _)|].
    + exists "Request timeout", 504. split; [listed|done].
    + exists message, 502. split; [listed|done].
    + exists "Unknown error", 500. split; [listed|done].
Qed.

(** A request that is not accepted is answered with an error status, and
    the handler did nothing beyond the verification, if it came to it. *)
Lemma handle_fetch_rejected req env st :
  (exists token body url hostname,
      accepted URL_hostname req env st token body url hostname) \/
  (status_code (response (value (handle req env st))) ∈ [400; 401; 402; 403; 500] /\
   floating (value (handle req env st)) = None /\
   ((final (handle req env st) = st /\ trace (handle req env st) = []) \/
    exists token,
      bearer (authorization req) = Some token /\
      final (handle req env st) = final (verifyToken token (verify_env env) st) /\
      trace (handle req env st) = trace (verifyToken token (verify_env env) st))).
Proof.
  unfold handle_fetch, onError, reply.
  destruct (bearer (authorization req)) as [token|] eqn:Hb;
    [|right; simpl; split; [listed|by auto]].
  assert (Hrej : forall code : Z,
             code ∈ [400; 401; 402; 403; 500] ->
             code ∈ [400; 401; 402; 403; 500] /\
             None = (None : option (list UsageRecord.t)) /\
             ((final (verifyToken token (verify_env env) st) = st /\
               trace (verifyToken token (verify_env env) st) = []) \/
              exists token',
                Some token = Some token' /\
                final (verifyToken token (verify_env env) st)
                  = final (verifyToken token' (verify_env env) st) /\
                trace (verifyToken token (verify_env env) st)
                  = trace (verifyToken token' (verify_env env) st)))
    by (intros code Hcode; split; [done|]; split; [done|]; right; by exists token).
  destruct (VerifyResponse.valid _) eqn:Hv; simpl; [|right; simpl; apply Hrej; listed].
  case_bool_decide as Ha; [right; simpl; apply Hrej; listed|].
  destruct (json req) as [| |body] eqn:Hj; try (right; simpl; apply Hrej; listed).
  destruct (FetchRequest.url body) as [url|] eqn:Hu; [|right; simpl; apply Hrej; listed].
  case_bool_decide as Hne; [right; simpl; apply Hrej; listed|].
  destruct (URL_hostname url) as [hostname|] eqn:Hp; [|right; simpl; apply Hrej; listed].
  destruct (internal_host hostname) eqn:Hh; [right; simpl; apply Hrej; listed|].
  case_bool_decide as Hs; [right; simpl; apply Hrej; listed|].
  left. exists token, body, url, hostname. split; try done. lia.
Qed.

(** X4: the fetch handler only ever answers 200, 400, 401, 402, 403, 500,
    502 or 504; and a 200 always wraps a response of the target to an
    accepted request, with the target's own status inside the envelope. *)
Theorem fetch_status_codes (req : Request) (env : FetchEnv) (st : State) :
  status_code (response (value (handle req env st)))
    ∈ [200; 400; 401; 402; 403; 500; 502; 504] /\
  (status_code (response (value (handle req env st))) = 200 ->
   exists token body url hostname status hs text,
     accepted URL_hostname req env st token body url hostname /\
     upstream env = Responded status hs text /\
     response (value (handle req env st))
       = Fetched (FetchResponse.mk status (collect_headers hs) text REGION
                    (t_done env - t_start env))).
Proof.
  destruct (handle_fetch_rejected req env st)
    as [(token & body & url & hostname & Hacc)|[Hcode _]].
  - destruct (handle_fetch_accepted_cases _ _ _ _ _ _ _ Hacc)
      as [(status & hs & text & Hup & _ & ->)
         |[(status & hs & text & Hup & _ & ->)
          |(error & code & Hcode & ->)]]; simpl.
    + split; [listed|]. intros _.
      by exists token, body, url, hostname, status, hs, text.
    + split; [listed|]. intros _.
      by exists token, body, url, hostname, status, hs, text.
    + split; [|intros ->; unlisted Hcode].
      repeat (apply elem_of_cons in Hcode as [->|Hcode]; [listed|]).
      by apply elem_of_nil in Hcode.
  - split; [|intros H200; rewrite H200 in Hcode; unlisted Hcode].
    revert Hcode. generalize (status_code (response (value (handle req env st)))).
    intros code Hcode.
    repeat (apply elem_of_cons in Hcode as [->|Hcode]; [listed|]).
    by apply elem_of_nil in Hcode.
Qed.

(** X5: no run of the fetch handler leaves the ledger longer than 10000
    records, unless it already found it longer (and then not longer than it
    found it). *)
Theorem fetch_ledger_bounded (req : Request) (env : FetchEnv) (st : State) :
  Z.of_nat (length (pendingUsage (final (handle req env st))))
  <= Z.max 10000 (Z.of_nat (length (pendingUsage st))).
Proof.
  destruct (handle_fetch_cases REGION URL_hostname toUpperCase toISOString
              req env st)
    as [[Hledger _ _]|(token & body & url & hostname & Hacc)].
  - rewrite Hledger. lia.
  - pose proof (verifyToken_ledger token (verify_env env) st) as Hledger.
    destruct (handle_fetch_accepted_cases _ _ _ _ _ _ _ Hacc)
      as [(status & hs & text & _ & Hlen & ->)
         |[(status & hs & text & _ & Hlen & ->)
          |(error & code & _ & ->)]]; simpl.
    + rewrite Hledger, length_app. simpl. lia.
    + lia.
    + rewrite Hledger. lia.
Qed.

(** X6: the network calls of one run of the fetch handler are, in this order,
    at most one verify call, at most one outbound call, at most one call to
    the usage endpoint; the usage call only follows an outbound call. The
    handler never repeats a call. *)
Theorem fetch_calls_in_order (req : Request) (env : FetchEnv) (st : State) :
  exists vs os us,
    trace (handle req env st) = vs ++ os ++ us /\
    (vs = [] \/ exists token, vs = [verify_call token]) /\
    (os = [] \/ exists url method headers body timeout,
                  os = [OutboundCall url method headers body timeout]) /\
    (us = [] \/ exists records, us = [UsageCall "keyfetch" REGION records]) /\
    (os = [] -> us = []).
Proof.
  assert (Hverify : forall token,
             trace (verifyToken token (verify_env env) st) = [] \/
             exists t, trace (verifyToken token (verify_env env) st)
                       = [verify_call t]).
  { intros token.
    destruct (verifyToken_trace token (verify_env env) st) as [->| ->]; eauto. }
  destruct (handle_fetch_rejected req env st)
    as [(token & body & url & hostname & Hacc)
       |(_ & _ & [[_ Htr]|(token & _ & _ & Htr)])].
  2,3: exists (trace (handle req env st)), [], [];
    rewrite !app_nil_r; split; [done|]; split; [|by auto];
    rewrite Htr; by auto.
  - destruct (handle_fetch_accepted_cases _ _ _ _ _ _ _ Hacc)
      as [(status & hs & text & _ & _ & ->)
         |[(status & hs & text & _ & _ & ->)
          |(error & code & _ & ->)]]; simpl.
    + eexists _, [_], []. split; [done|]. split; [apply Hverify|].
      split; [right; eauto 10|]. split; [by left|done].
    + eexists _, [_], [_]. split; [done|]. split; [apply Hverify|].
      split; [right; eauto 10|]. split; [right; eauto|done].
    + eexists _, [_], []. split; [done|]. split; [apply Hverify|].
      split; [right; eauto 10|]. split; [by left|done].
Qed.

(** An outbound call in the trace is the call of an accepted request. *)
Lemma outbound_call_shape req env st url method headers body timeout :
  OutboundCall url method headers body timeout ∈ trace (handle req env st) ->
  exists token payload hostname,
    accepted URL_hostname req env st token payload url hostname /\
    OutboundCall url method headers body timeout = outbound_of payload url.
Proof.
  intros Hin.
  destruct (handle_fetch_rejected req env st)
    as [(token & payload & url' & hostname & Hacc)
       |(_ & _ & [[_ Htr]|(token & _ & _ & Htr)])].
  - assert (Hcall : trace (handle req env st)
                    = trace (verifyToken token (verify_env env) st)
                      ++ [outbound_of payload url'] \/
                    exists records,
                      trace (handle req env st)
                      = trace (verifyToken token (verify_env env) st)
                        ++ [outbound_of payload url';
                            UsageCall "keyfetch" REGION records]).
    { destruct (handle_fetch_accepted_cases _ _ _ _ _ _ _ Hacc)
        as [(status & hs & text & _ & _ & ->)
           |[(status & hs & text & _ & _ & ->)
            |(error & code & _ & ->)]]; simpl; eauto. }
    assert (Hhere : OutboundCall url method headers body timeout
                    = outbound_of payload url').
    { destruct Hcall as [Htr|[records Htr]]; rewrite Htr in Hin;
        apply elem_of_app in Hin as [Hin|Hin].
      1,3: destruct (verifyToken_trace token (verify_env env) st) as [Hv|Hv];
        rewrite Hv in Hin; [by apply elem_of_nil in Hin|];
        by apply list_elem_of_singleton in Hin.
      - by apply list_elem_of_singleton in Hin.
      - apply elem_of_cons in Hin as [Hin|Hin]; [done|].
        by apply list_elem_of_singleton in Hin. }
    exists token, payload, hostname.
    assert (url = url') as -> by congruence. done.
  - rewrite Htr in Hin. by apply elem_of_nil in Hin.
  - rewrite Htr in Hin.
    destruct (verifyToken_trace token (verify_env env) st) as [Hv|Hv];
      rewrite Hv in Hin; [by apply elem_of_nil in Hin|].
    by apply list_elem_of_singleton in Hin.
Qed.

(** X7: the fetch handler issues an outbound call only for a token that was
    verified as valid and not as unable to pay, and only to a non-empty url
    that parses to a host name which passes the internal-host test. *)
Theorem outbound_only_when_authorized (req : Request) (env : FetchEnv)
    (st : State) url method headers body timeout :
  OutboundCall url method headers body timeout ∈ trace (handle req env st) ->
  url <> "" /\
  (exists hostname,
      URL_hostname url = Some hostname /\ internal_host hostname = false) /\
  exists token,
    bearer (authorization req) = Some token /\
    token <> "" /\
    VerifyResponse.valid (value (verifyToken token (verify_env env) st)) = true /\
    VerifyResponse.can_afford (value (verifyToken token (verify_env env) st))
      <> Some false.
Proof.
  intros Hin.
  destruct (outbound_call_shape _ _ _ _ _ _ _ _ Hin)
    as (token & payload & hostname & [Hb Hv Ha Hj Hu Hne Hp Hh Hs] & _).
  split; [done|]. split; [by exists hostname|].
  exists token. split; [done|]. split; [|done].
  intros ->. unfold verifyToken in Hv.
  by rewrite bool_decide_eq_true_2 in Hv.
Qed.

(** X8: the outbound call carries every header of the request's payload
    unchanged, and the header [User-Agent: KeyFetch/1.0] exactly when the
    payload has no [User-Agent] of its own; it carries no other header. *)
Theorem outbound_headers_forwarded (req : Request) (env : FetchEnv)
    (st : State) url method headers body timeout :
  OutboundCall url method headers body timeout ∈ trace (handle req env st) ->
  exists payload,
    json req = Fields payload /\
    (forall name v, FetchRequest.headers payload !! name = Some v ->
                    headers !! name = Some v) /\
    (FetchRequest.headers payload !! "User-Agent" = None ->
     headers !! "User-Agent" = Some "KeyFetch/1.0") /\
    (forall name, name <> "User-Agent" ->
                  headers !! name = FetchRequest.headers payload !! name).
Proof.
  intros Hin.
  destruct (outbound_call_shape _ _ _ _ _ _ _ _ Hin)
    as (token & payload & hostname & Hacc & Hcall).
  injection Hcall as _ -> _ _.
  exists payload. split; [apply Hacc|]. split; [|split].
  - intros name v Hname. by apply lookup_union_Some_l.
  - intros Hnone. rewrite lookup_union_r by done. apply lookup_singleton_eq.
  - intros name Hname. rewrite lookup_union_l; [done|].
    by apply lookup_singleton_ne.
Qed.

(** X9: the outbound call has the upper-cased method of the payload, GET
    when the payload names none; it carries no body for GET and HEAD, for a
    missing body and for an empty string, and for any other method it carries
    a non-empty string body as it is. *)
Theorem outbound_body_rules (req : Request) (env : FetchEnv) (st : State)
    url method headers body timeout :
  OutboundCall url method headers body timeout ∈ trace (handle req env st) ->
  exists payload,
    json req = Fields payload /\
    method = effective_method toUpperCase (FetchRequest.method payload) /\
    (FetchRequest.method payload = None \/ FetchRequest.method payload = Some "" ->
     method = toUpperCase "GET") /\
    (method = "GET" \/ method = "HEAD" -> body = None) /\
    (FetchRequest.body payload = None \/
     FetchRequest.body payload = Some (FetchRequest.Text "") -> body = None) /\
    (forall s, FetchRequest.body payload = Some (FetchRequest.Text s) ->
               s <> "" -> method <> "GET" -> method <> "HEAD" ->
               body = Some s).
Proof.
  intros Hin.
  destruct (outbound_call_shape _ _ _ _ _ _ _ _ Hin)
    as (token & payload & hostname & Hacc & Hcall).
  injection Hcall as -> _ -> _.
  exists payload. split; [apply Hacc|]. split; [done|].
  unfold outbound_body, effective_method. split; [|split; [|split]].
  - by intros [-> | ->].
  - intros [-> | ->]; by destruct (FetchRequest.body payload).
  - intros [-> | ->]; [done|]. simpl. by rewrite andb_false_r.
  - intros s -> Hs Hget Hhead. simpl.
    by rewrite !bool_decide_eq_false_2 by done.
Qed.

(** X10: the timeout of the outbound call is the payload's own timeout when
    that lies between 1 and 30000, and 30000 when the payload names none,
    names 0 or names more. *)
Theorem outbound_timeout_rules (req : Request) (env : FetchEnv) (st : State)
    url method headers body timeout :
  OutboundCall url method headers body timeout ∈ trace (handle req env st) ->
  exists payload,
    json req = Fields payload /\
    (forall t, FetchRequest.timeout payload = Some t -> 0 < t <= 30000 ->
               timeout = t) /\
    (FetchRequest.timeout payload = None \/
     FetchRequest.timeout payload = Some 0 -> timeout = 30000) /\
    (forall t, FetchRequest.timeout payload = Some t -> 30000 <= t ->
               timeout = 30000).
Proof.
  intros Hin.
  destruct (outbound_call_shape _ _ _ _ _ _ _ _ Hin)
    as (token & payload & hostname & Hacc & Hcall).
  injection Hcall as _ _ _ ->.
  exists payload. split; [apply Hacc|].
  unfold effective_timeout. split; [|split].
  - intros t -> Ht. rewrite bool_decide_eq_false_2 by lia. lia.
  - by intros [-> | ->].
  - intros t -> Ht. rewrite bool_decide_eq_false_2 by lia. lia.
Qed.

(** X11: a token that the usage handler has just had verified by the
    identity service is not verified remotely again by a fetch request that
    looks it up before the entry expires, 60000 ms after the insertion: the
    fetch handler works with the cached result and issues no verify call. *)
Theorem usage_then_fetch_hits_cache (req : Request) (env : FetchEnv)
    (venv : VerifyEnv) (st : State) (authHeader : option string) (token : string) :
  bearer authHeader = Some token ->
  bearer (authorization req) = Some token ->
  trace (handle_usage REGION authHeader venv st) = [verify_call token] ->
  status_code (response (value (handle_usage REGION authHeader venv st))) = 200 ->
  t_lookup (verify_env env) < t_insert venv + 60000 ->
  verifyToken token (verify_env env) (final (handle_usage REGION authHeader venv st))
    = mkOutcome (value (verifyToken token venv st))
        (final (handle_usage REGION authHeader venv st)) [] /\
  forall t, verify_call t
            ∉ trace (handle req env (final (handle_usage REGION authHeader venv st))).
Proof.
  intros Hb Hb' Htr Hok Hlt. revert Htr Hok.
  unfold handle_usage. rewrite Hb.
  destruct (VerifyResponse.valid (value (verifyToken token venv st))) eqn:Hv;
    simpl; [|done].
  intros Htr _.
  assert (Hne : token <> "").
  { intros ->. unfold verifyToken in Htr.
    by rewrite bool_decide_eq_true_2 in Htr. }
  destruct (verifyToken_called token venv st) as (_ & _ & Hremote);
    [by rewrite Htr|].
  assert (Hentry : tokenCache (final (verifyToken token venv st)) !! token
                   = Some (CacheEntry.mk (value (verifyToken token venv st))
                             (t_insert venv + TOKEN_CACHE_TTL))).
  { rewrite Hremote in Hv |- *. revert Hv. unfold verifyToken_remote.
    destruct (answer venv) as [|data]; [done|].
    destruct (VerifyResponse.valid data) eqn:Hd; simpl; [intros _|congruence].
    apply lookup_insert_eq. }
  assert (Hhit : verifyToken token (verify_env env) (final (verifyToken token venv st))
                 = mkOutcome (value (verifyToken token venv st))
                     (final (verifyToken token venv st)) []).
  { by rewrite (verifyToken_hit _ _ _ _ Hne Hentry). }
  split; [exact Hhit|].
  intros t Hin.
  destruct (handle_fetch_rejected req env (final (verifyToken token venv st)))
    as [(token' & payload & url & hostname & Hacc)
       |(_ & _ & [[_ Hnil]|(token' & Hb'' & _ & Hsame)])].
  - assert (token' = token) as ->
      by (destruct Hacc as [Hb'' _ _ _ _ _ _ _ _]; congruence).
    destruct (handle_fetch_accepted_cases _ _ _ _ _ _ _ Hacc)
      as [(status & hs & text & _ & _ & Heq)
         |[(status & hs & text & _ & _ & Heq)
          |(error & code & _ & Heq)]];
      rewrite Heq, Hhit in Hin; simpl in Hin;
      repeat (apply elem_of_cons in Hin as [Hin|Hin]; [discriminate Hin|]);
      by apply elem_of_nil in Hin.
  - rewrite Hnil in Hin. by apply elem_of_nil in Hin.
  - assert (token' = token) as -> by congruence.
    rewrite Hsame, Hhit in Hin. by apply elem_of_nil in Hin.
Qed.

End Calls.

(** ** Flushes in flight *)

Lemma concat_delete (i : nat) (batch : list UsageRecord.t)
    (batches : list (list UsageRecord.t)) :
  batches !! i = Some batch ->
  concat batches ≡ₚ batch ++ concat (delete i batches).
Proof.
  revert i. induction batches as [|b bs IH]; intros [|i] Hi; simpl in *;
    try done.
  - by injection Hi as ->.
  - rewrite (IH i Hi). rewrite !app_assoc.
    by rewrite (Permutation_app_comm b batch).
Qed.

(** The records an action appends. *)
Lemma arrived_cons a script :
  arrived (a :: script)
  = match a with Arrive r => [r] | _ => [] end ++ arrived script.
Proof. reflexivity. Qed.

(** What the settling of a pending call leaves behind. *)
Lemma act_settle region limit i ans records n :
  flights n !! i = Some records ->
  act region limit (Settle i ans) n
  = mkNode
      (if failed ans && bool_decide (length records <= limit)%nat
       then mkState (pendingUsage (globals n) ++ records)
              (tokenCache (globals n))
       else globals n)
      (delete i (flights n))
      (if failed ans then acknowledged n else acknowledged n ++ records).
Proof.
  intros Hi. unfold act. rewrite Hi.
  unfold reportUsage_settle, requeue.
  destruct ans as [|b|[|]]; simpl; by try case_bool_decide.
Qed.

(** No action creates a record: what the node holds afterwards was held
    before or has just arrived. *)
Lemma act_held_sub region limit a n :
  held (act region limit a n)
  ⊆+ held n ++ match a with Arrive r => [r] | _ => [] end.
Proof.
  destruct a as [r| |i ans|token env].
  - unfold held. simpl. apply Permutation_submseteq.
    rewrite <- !app_assoc.
    rewrite (Permutation_app_comm [r]). by rewrite <- !app_assoc.
  - unfold held. simpl. rewrite app_nil_r. apply Permutation_submseteq.
    unfold reportUsage_begin.
    destruct (pendingUsage (globals n)) as [|r rs] eqn:Hp; simpl.
    + by rewrite Hp.
    + rewrite concat_app. simpl. rewrite app_nil_r.
      rewrite (Permutation_app_comm (concat (flights n))).
      by rewrite <- !app_assoc.
  - rewrite app_nil_r.
    destruct (flights n !! i) as [records|] eqn:Hi;
      [|unfold act; by rewrite Hi].
    rewrite (act_settle _ _ _ _ _ _ Hi). unfold held. simpl.
    rewrite (concat_delete i records (flights n) Hi).
    destruct (failed ans); simpl; [case_bool_decide; simpl|].
    + apply Permutation_submseteq. by rewrite <- !app_assoc.
    + apply submseteq_skips_l. rewrite <- app_assoc.
      by apply submseteq_inserts_l.
    + apply Permutation_submseteq. f_equiv.
      rewrite (Permutation_app_comm (acknowledged n)).
      rewrite (Permutation_app_comm records (concat _)).
      by rewrite <- !app_assoc.
  - unfold held. simpl. by rewrite app_nil_r, verifyToken_ledger.
Qed.

(** No action adds to what is still to be delivered, except an arrival. *)
Lemma act_outstanding region limit a n :
  (length (outstanding (act region limit a n))
   <= length (outstanding n)
      + length (match a with Arrive r => [r] | _ => [] end))%nat.
Proof.
  destruct a as [r| |i ans|token env].
  - unfold outstanding. simpl. rewrite !length_app. simpl. lia.
  - unfold outstanding. simpl. unfold reportUsage_begin.
    destruct (pendingUsage (globals n)) as [|r rs] eqn:Hp; simpl.
    + rewrite Hp. simpl. lia.
    + rewrite concat_app, !length_app. simpl. rewrite app_nil_r. lia.
  - destruct (flights n !! i) as [records|] eqn:Hi;
      [|unfold act; rewrite Hi; lia].
    rewrite (act_settle _ _ _ _ _ _ Hi). unfold outstanding. simpl.
    rewrite !length_app.
    rewrite (Permutation_length (concat_delete i records (flights n) Hi)).
    rewrite length_app.
    destruct (failed ans && _); simpl; rewrite ?length_app; lia.
  - unfold outstanding. simpl. rewrite verifyToken_ledger. lia.
Qed.

(** While what is still to be delivered fits into one spread call, one
    action keeps every record and adds the one that arrives. *)
Lemma act_held region limit a n :
  (length (outstanding n) <= limit)%nat ->
  held (act region limit a n)
  ≡ₚ held n ++ match a with Arrive r => [r] | _ => [] end.
Proof.
  intros Hfit. destruct a as [r| |i ans|token env].
  - unfold held. simpl. rewrite <- !app_assoc.
    rewrite (Permutation_app_comm [r]). by rewrite <- !app_assoc.
  - unfold held. simpl. rewrite app_nil_r. unfold reportUsage_begin.
    destruct (pendingUsage (globals n)) as [|r rs] eqn:Hp; simpl.
    + by rewrite Hp.
    + rewrite concat_app. simpl. rewrite app_nil_r.
      rewrite (Permutation_app_comm (concat (flights n))).
      by rewrite <- !app_assoc.
  - rewrite app_nil_r.
    destruct (flights n !! i) as [records|] eqn:Hi;
      [|unfold act; by rewrite Hi].
    rewrite (act_settle _ _ _ _ _ _ Hi).
    assert (Hrecords : (length records <= limit)%nat).
    { unfold outstanding in Hfit. rewrite length_app in Hfit.
      rewrite (Permutation_length (concat_delete i records (flights n) Hi))
        in Hfit.
      rewrite length_app in Hfit. lia. }
    rewrite (bool_decide_eq_true_2 _ Hrecords), andb_true_r.
    unfold held. simpl.
    rewrite (concat_delete i records (flights n) Hi).
    destruct (failed ans); simpl.
    + by rewrite <- !app_assoc.
    + f_equiv. rewrite (Permutation_app_comm (acknowledged n)).
      rewrite (Permutation_app_comm records (concat _)).
      by rewrite <- !app_assoc.
  - unfold held. simpl. by rewrite app_nil_r, verifyToken_ledger.
Qed.


(** X13: an awaited [reportUsage()] with nothing running in between, as at
    shutdown, issues one call with the whole ledger, or none when the ledger
    is empty. When the submission fails and the batch fits into one spread
    call, it leaves the state exactly as it found it, with the records in
    their old order; when the submission fails and the batch does not fit,
    it leaves the ledger empty although nothing was delivered; when the
    submission goes through it leaves the ledger empty. The token cache is
    not touched. *)
Theorem awaited_report_restores_on_failure (region : string) (limit : nat)
    (ans : UsageAnswer) (st : State) :
  trace (reportUsage region limit ans st)
    = match pendingUsage st with
      | [] => []
      | _ :: _ => [UsageCall "keyfetch" region (pendingUsage st)]
      end /\
  tokenCache (final (reportUsage region limit ans st)) = tokenCache st /\
  (failed ans = true -> (length (pendingUsage st) <= limit)%nat ->
   final (reportUsage region limit ans st) = st) /\
  (failed ans = true -> (limit < length (pendingUsage st))%nat ->
   pendingUsage (final (reportUsage region limit ans st)) = []) /\
  (failed ans = false ->
   pendingUsage (final (reportUsage region limit ans st)) = []).
Proof.
  unfold reportUsage, reportUsage_begin.
  destruct st as [ledger cache]. destruct ledger as [|r rs]; simpl.
  - repeat split; try done; simpl; lia.
  - unfold reportUsage_settle, requeue. simpl.
    destruct ans as [|b|[|]]; simpl; try case_bool_decide; simpl;
      repeat split; try done; intros; simpl in *; lia.
Qed.

Lemma awaited_report_restores_on_failure_witness :
  failed (UsageRefused true) = true /\
  (length (pendingUsage two_agents) <= 4)%nat /\
  final (reportUsage "eu-frankfurt" 4 (UsageRefused true) two_agents)
    = two_agents /\
  (1 < length (pendingUsage two_agents))%nat /\
  pendingUsage (final (reportUsage "eu-frankfurt" 1 (UsageRefused true)
                         two_agents)) = [] /\
  failed (UsageAccepted true) = false /\
  pendingUsage (final (reportUsage "eu-frankfurt" 4 (UsageAccepted true)
                         two_agents)) = [].
Proof.
  assert (Hfits : (length (pendingUsage two_agents) <= 4)%nat)
    by (vm_compute; lia).
  assert (Hbig : (1 < length (pendingUsage two_agents))%nat)
    by (vm_compute; lia).
  destruct (awaited_report_restores_on_failure "eu-frankfurt" 4
              (UsageRefused true) two_agents) as (_ & _ & Hfail & _ & _).
  destruct (awaited_report_restores_on_failure "eu-frankfurt" 1
              (UsageRefused true) two_agents) as (_ & _ & _ & Hlost & _).
  destruct (awaited_report_restores_on_failure "eu-frankfurt" 4
              (UsageAccepted true) two_agents) as (_ & _ & _ & _ & Hok).
  split; [reflexivity|]. split; [exact Hfits|].
  split; [exact (Hfail eq_refl Hfits)|]. split; [exact Hbig|].
  split; [exact (Hlost eq_refl Hbig)|].
  split; [reflexivity|exact (Hok eq_refl)].
Defined.

(** ** Token cache, continued *)

Lemma verifyToken_keeps token token' env st :
  is_Some (tokenCache st !! token') ->
  is_Some (tokenCache (final (verifyToken token env st)) !! token').
Proof.
  intros Hsome. unfold verifyToken, verifyToken_remote.
  repeat (case_bool_decide || case_match); simpl; try done;
    (rewrite lookup_insert; by case_decide).
Qed.

Lemma step_keeps st st' token :
  step st st' ->
  is_Some (tokenCache st !! token) -> is_Some (tokenCache st' !! token).
Proof.
  destruct 1 as [t env st|r st|region st|limit ans records st]; intros Hsome.
  - by apply verifyToken_keeps.
  - exact Hsome.
  - unfold reportUsage_begin. by destruct (pendingUsage st).
  - unfold reportUsage_settle, requeue.
    destruct ans as [|b|[|]]; try case_bool_decide; exact Hsome.
Qed.

(** X14: the node never removes an entry from the token cache: a token that
    has an entry keeps one, expired or not, through every step of the node
    and through every run of the fetch and usage handlers; and a verification
    leaves the entries of all other tokens as they are. *)
Theorem cache_never_evicts (st st' : State) (token : string) :
  rtc step st st' ->
  is_Some (tokenCache st !! token) ->
  is_Some (tokenCache st' !! token) /\
  (forall REGION URL_hostname toUpperCase toISOString req env,
      is_Some (tokenCache
                 (final (handle_fetch REGION URL_hostname toUpperCase
                           toISOString req env st')) !! token)) /\
  (forall REGION authHeader env,
      is_Some (tokenCache (final (handle_usage REGION authHeader env st'))
                 !! token)) /\
  (forall other env,
      other <> token ->
      tokenCache (final (verifyToken other env st')) !! token
        = tokenCache st' !! token).
Proof.
  intros Hsteps Hsome.
  assert (Hrtc : forall s s', rtc step s s' ->
                   is_Some (tokenCache s !! token) ->
                   is_Some (tokenCache s' !! token)).
  { induction 1 as [|s1 s2 s3 Hstep _ IH]; [done|].
    intros H1. apply IH. by eapply step_keeps. }
  pose proof (Hrtc _ _ Hsteps Hsome) as Hsome'.
  split; [exact Hsome'|]. split; [|split].
  - intros. eapply Hrtc; [apply handle_fetch_steps|exact Hsome'].
  - intros. eapply Hrtc; [apply handle_usage_steps|exact Hsome'].
  - intros other env Hne. by apply verifyToken_other.
Qed.

Lemma cache_never_evicts_witness :
  rtc step (final (verifyToken "tok" env_ok initial))
    (final (verifyToken "other" env_revoked
              (final (verifyToken "tok" env_ok initial)))) /\
  is_Some (tokenCache (final (verifyToken "tok" env_ok initial)) !! "tok") /\
  is_Some (tokenCache
             (final (verifyToken "other" env_revoked
                       (final (verifyToken "tok" env_ok initial)))) !! "tok").
Proof.
  assert (Hstep : rtc step (final (verifyToken "tok" env_ok initial))
                    (final (verifyToken "other" env_revoked
                              (final (verifyToken "tok" env_ok initial)))))
    by apply rtc_once, step_verify.
  assert (Hsome : is_Some (tokenCache (final (verifyToken "tok" env_ok initial))
                             !! "tok"))
    by (eexists; reflexivity).
  split; [exact Hstep|]. split; [exact Hsome|].
  exact (proj1 (cache_never_evicts _ _ "tok" Hstep Hsome)).
Defined.

(** ** Response headers *)

Lemma collect_headers_snoc hs name v :
  collect_headers (hs ++ [(name, v)])
  = if bool_decide (name = "__proto__") then collect_headers hs
    else <[name := v]> (collect_headers hs).
Proof. unfold collect_headers. by rewrite foldl_app. Qed.

(** X15: the envelope has a header for exactly the names the target's
    response delivered, except the name [__proto__], for which it never has
    one; and for a name delivered more than once it has the value delivered
    last. *)
Theorem collect_headers_last_wins (hs : list (string * string)) (name : string) :
  (is_Some (collect_headers hs !! name)
   <-> name ∈ hs.*1 /\ name <> "__proto__") /\
  (forall hs1 hs2 v,
      hs = hs1 ++ (name, v) :: hs2 -> name ∉ hs2.*1 -> name <> "__proto__" ->
      collect_headers hs !! name = Some v) /\
  collect_headers hs !! "__proto__" = None.
Proof.
  assert (Hdom : forall n l, is_Some (collect_headers l !! n)
                             <-> n ∈ l.*1 /\ n <> "__proto__").
  { intros n. induction l as [|[k v] l IH] using rev_ind.
    - unfold collect_headers. simpl. rewrite lookup_empty.
      split; [by intros [? ?]|by intros [?%elem_of_nil _]].
    - rewrite collect_headers_snoc, fmap_app, elem_of_app. simpl.
      rewrite list_elem_of_singleton. case_bool_decide as Hproto.
      + rewrite IH. split; [tauto|]. intros [[Hin|Heq] Hn]; [tauto|].
        congruence.
      + rewrite lookup_insert. case_decide as Hk.
        * subst k. split; [intros _; split; [by right|done]|by eauto].
        * rewrite IH. split; [tauto|]. intros [[Hin|Heq] Hn]; [tauto|].
          congruence. }
  split; [apply Hdom|]. split.
  - intros hs1 hs2 v -> Hlast Hname. revert Hlast.
    induction hs2 as [|[k w] hs2 IH] using rev_ind.
    all: intros Hlast.
    + rewrite collect_headers_snoc.
      rewrite bool_decide_eq_false_2 by done. apply lookup_insert_eq.
    + rewrite fmap_app, elem_of_app in Hlast. simpl in Hlast.
      rewrite app_comm_cons, app_assoc, collect_headers_snoc.
      case_bool_decide; [apply IH; tauto|].
      rewrite lookup_insert_ne.
      * apply IH. tauto.
      * intros ->. apply Hlast. right. listed.
  - apply eq_None_not_Some. rewrite Hdom. tauto.
Qed.

Lemma collect_headers_last_wins_witness :
  [("set-cookie", "a=1"); ("__proto__", "x"); ("set-cookie", "b=2")]
    = [("set-cookie", "a=1"); ("__proto__", "x")] ++ ("set-cookie", "b=2") :: [] /\
  ("set-cookie" ∉ (fst <$> ([] : list (string * string)))) /\
  "set-cookie" <> "__proto__" /\
  collect_headers
    [("set-cookie", "a=1"); ("__proto__", "x"); ("set-cookie", "b=2")]
    !! "set-cookie" = Some "b=2" /\
  collect_headers
    [("set-cookie", "a=1"); ("__proto__", "x"); ("set-cookie", "b=2")]
    !! "__proto__" = None.
Proof.
  assert (Hnot : "set-cookie" ∉ (fst <$> ([] : list (string * string))))
    by (intros Hin; by apply elem_of_nil in Hin).
  assert (Hname : "set-cookie" <> "__proto__") by discriminate.
  destruct (collect_headers_last_wins
              [("set-cookie", "a=1"); ("__proto__", "x"); ("set-cookie", "b=2")]
              "set-cookie") as (_ & Hlast & Hproto).
  split; [reflexivity|]. split; [exact Hnot|]. split; [exact Hname|].
  split; [|exact Hproto].
  exact (Hlast [("set-cookie", "a=1"); ("__proto__", "x")] [] "b=2"
           eq_refl Hnot Hname).
Defined.

(** ** Concrete instances *)

Lemma no_token_no_call_witness :
  (forall token, token <> "" ->
     authorization (anonymous_request "https://example.com/data")
       <> Some ("Bearer " +:+ token)) /\
  status_code
    (response (value (sample_fetch (anonymous_request "https://example.com/data")
                        (fetch_env env_ok (Responded 200 [] "hello")) two_agents)))
  = 401 /\
  trace (handle_usage "eu-frankfurt"
           (authorization (anonymous_request "https://example.com/data"))
           env_ok two_agents) = [].
Proof.
  assert (Hnone : forall token, token <> "" ->
            authorization (anonymous_request "https://example.com/data")
              <> Some ("Bearer " +:+ token))
    by (intros token _; discriminate).
  destruct (no_token_no_call "eu-frankfurt" sample_hostname sample_upper
              sample_iso (anonymous_request "https://example.com/data")
              (fetch_env env_ok (Responded 200 [] "hello")) env_ok two_agents
              Hnone)
    as (Hstatus & _ & _ & _ & Htrace).
  split; [exact Hnone|]. split; [exact Hstatus|exact Htrace].
Defined.

Lemma insufficient_credits_exactly_witness :
  bearer (authorization (get_request "https://example.com/data")) = Some "tok" /\
  VerifyResponse.valid (value (verifyToken "tok" env_broke initial)) = true /\
  VerifyResponse.can_afford (value (verifyToken "tok" env_broke initial))
    = Some false /\
  response (value (sample_fetch (get_request "https://example.com/data")
                     (fetch_env env_broke (Responded 200 [] "hello")) initial))
    = InsufficientCredits (Some 1) (Some 2) /\
  status_code
    (response (value (sample_fetch (get_request "https://example.com/data")
                        (fetch_env env_broke (Responded 200 [] "hello")) initial)))
  = 402.
Proof.
  destruct (insufficient_credits_exactly "eu-frankfurt" sample_hostname
              sample_upper sample_iso (get_request "https://example.com/data")
              (fetch_env env_broke (Responded 200 [] "hello")) initial)
    as [Hiff Hreply].
  split; [reflexivity|]. split; [reflexivity|]. split; [reflexivity|].
  split.
  - exact (proj1 (Hreply "tok" eq_refl eq_refl eq_refl)).
  - apply Hiff. exists "tok". repeat split; reflexivity.
Defined.

Lemma fetch_status_codes_witness :
  status_code
    (response (value (sample_fetch (get_request "https://example.com/data")
                        (fetch_env env_ok (Responded 503 [] "down")) initial)))
  = 200 /\
  exists token body url hostname status hs text,
    accepted sample_hostname (get_request "https://example.com/data")
      (fetch_env env_ok (Responded 503 [] "down")) initial token body url
      hostname /\
    upstream (fetch_env env_ok (Responded 503 [] "down"))
      = Responded status hs text /\
    response (value (sample_fetch (get_request "https://example.com/data")
                       (fetch_env env_ok (Responded 503 [] "down")) initial))
      = Fetched (FetchResponse.mk status (collect_headers hs) text "eu-frankfurt"
                   (t_done (fetch_env env_ok (Responded 503 [] "down"))
                    - t_start (fetch_env env_ok (Responded 503 [] "down")))).
Proof.
  split; [reflexivity|].
  exact (proj2 (fetch_status_codes "eu-frankfurt" sample_hostname sample_upper
                  sample_iso (get_request "https://example.com/data")
                  (fetch_env env_ok (Responded 503 [] "down")) initial)
           eq_refl).
Defined.

Lemma slow_request_call :
  OutboundCall "https://example.com/data" "GET"
    (FetchRequest.headers slow_body ∪ {["User-Agent" := "KeyFetch/1.0"]}) None 30000
    ∈ trace (sample_fetch slow_request
               (fetch_env env_ok (Responded 200 [] "hello")) initial).
Proof. apply list_elem_of_lookup. exists 1%nat. reflexivity. Qed.

Lemma outbound_only_when_authorized_witness :
  OutboundCall "https://example.com/data" "GET"
    (FetchRequest.headers slow_body ∪ {["User-Agent" := "KeyFetch/1.0"]}) None 30000
    ∈ trace (sample_fetch slow_request
               (fetch_env env_ok (Responded 200 [] "hello")) initial) /\
  "https://example.com/data" <> "" /\
  exists hostname,
    sample_hostname "https://example.com/data" = Some hostname /\
    internal_host hostname = false.
Proof.
  split; [exact slow_request_call|].
  destruct (outbound_only_when_authorized "eu-frankfurt" sample_hostname
              sample_upper sample_iso slow_request
              (fetch_env env_ok (Responded 200 [] "hello")) initial
              _ _ _ _ _ slow_request_call)
    as (Hne & Hhost & _).
  split; [exact Hne|exact Hhost].
Defined.

Lemma outbound_headers_forwarded_witness :
  OutboundCall "https://example.com/data" "GET"
    (FetchRequest.headers slow_body ∪ {["User-Agent" := "KeyFetch/1.0"]}) None 30000
    ∈ trace (sample_fetch slow_request
               (fetch_env env_ok (Responded 200 [] "hello")) initial) /\
  exists payload,
    json slow_request = Fields payload /\
    (FetchRequest.headers payload !! "User-Agent" = None ->
     (FetchRequest.headers slow_body ∪ {["User-Agent" := "KeyFetch/1.0"]})
       !! "User-Agent" = Some "KeyFetch/1.0").
Proof.
  split; [exact slow_request_call|].
  destruct (outbound_headers_forwarded "eu-frankfurt" sample_hostname
              sample_upper sample_iso slow_request
              (fetch_env env_ok (Responded 200 [] "hello")) initial
              _ _ _ _ _ slow_request_call)
    as (payload & Hj & _ & Hua & _).
  exists payload. split; [exact Hj|exact Hua].
Defined.

Lemma outbound_body_rules_witness :
  OutboundCall "https://example.com/data" "GET"
    (FetchRequest.headers slow_body ∪ {["User-Agent" := "KeyFetch/1.0"]}) None 30000
    ∈ trace (sample_fetch slow_request
               (fetch_env env_ok (Responded 200 [] "hello")) initial) /\
  exists payload,
    json slow_request = Fields payload /\
    "GET" = effective_method sample_upper (FetchRequest.method payload).
Proof.
  split; [exact slow_request_call|].
  destruct (outbound_body_rules "eu-frankfurt" sample_hostname
              sample_upper sample_iso slow_request
              (fetch_env env_ok (Responded 200 [] "hello")) initial
              _ _ _ _ _ slow_request_call)
    as (payload & Hj & Hm & _).
  exists payload. split; [exact Hj|exact Hm].
Defined.

Lemma outbound_timeout_rules_witness :
  OutboundCall "https://example.com/data" "GET"
    (FetchRequest.headers slow_body ∪ {["User-Agent" := "KeyFetch/1.0"]}) None 30000
    ∈ trace (sample_fetch slow_request
               (fetch_env env_ok (Responded 200 [] "hello")) initial) /\
  exists payload,
    json slow_request = Fields payload /\
    (forall t, FetchRequest.timeout payload = Some t -> 30000 <= t ->
               30000 = 30000).
Proof.
  split; [exact slow_request_call|].
  destruct (outbound_timeout_rules "eu-frankfurt" sample_hostname
              sample_upper sample_iso slow_request
              (fetch_env env_ok (Responded 200 [] "hello")) initial
              _ _ _ _ _ slow_request_call)
    as (payload & Hj & _ & _ & Hmax).
  exists payload. split; [exact Hj|exact Hmax].
Defined.

Lemma fetch_calls_in_order_witness :
  exists vs os us,
    trace (sample_fetch (get_request "https://example.com/data")
             (fetch_env env_ok (Responded 200 [] "hello")) full_ledger)
      = vs ++ os ++ us /\
    (vs = [] \/ exists token, vs = [verify_call token]) /\
    (os = [] \/ exists url method headers body timeout,
                  os = [OutboundCall url method headers body timeout]) /\
    (us = [] \/ exists records, us = [UsageCall "keyfetch" "eu-frankfurt" records]) /\
    (os = [] -> us = []).
Proof.
  exact (fetch_calls_in_order "eu-frankfurt" sample_hostname sample_upper
           sample_iso (get_request "https://example.com/data")
           (fetch_env env_ok (Responded 200 [] "hello")) full_ledger).
Defined.

Lemma usage_then_fetch_hits_cache_witness :
  bearer (Some "Bearer tok") = Some "tok" /\
  bearer (authorization (get_request "https://example.com/data")) = Some "tok" /\
  trace (handle_usage "eu-frankfurt" (Some "Bearer tok") env_ok initial)
    = [verify_call "tok"] /\
  status_code
    (response (value (handle_usage "eu-frankfurt" (Some "Bearer tok") env_ok
                        initial))) = 200 /\
  t_lookup (verify_env (fetch_env env_down (Responded 200 [] "hello")))
    < t_insert env_ok + 60000 /\
  forall t,
    verify_call t
    ∉ trace (sample_fetch (get_request "https://example.com/data")
               (fetch_env env_down (Responded 200 [] "hello"))
               (final (handle_usage "eu-frankfurt" (Some "Bearer tok") env_ok
                         initial))).
Proof.
  assert (Hlt : t_lookup (verify_env (fetch_env env_down (Responded 200 [] "hello")))
                < t_insert env_ok + 60000) by reflexivity.
  split; [reflexivity|]. split; [reflexivity|]. split; [reflexivity|].
  split; [reflexivity|]. split; [exact Hlt|].
  exact (proj2 (usage_then_fetch_hits_cache "eu-frankfurt" sample_hostname
                  sample_upper sample_iso (get_request "https://example.com/data")
                  (fetch_env env_down (Responded 200 [] "hello")) env_ok initial
                  (Some "Bearer tok") "tok" eq_refl eq_refl eq_refl eq_refl Hlt)).
Defined.


(** ** Edge functions *)

(** The two ways a relayed answer goes: its status is one a response can
    carry, or it is not. *)
Ltac answered backend :=
  let status := fresh "status" in
  destruct backend as [status ? ? ?|?];
  [destruct (Edge.response_status status)|].

(** Header names that are literals, put in lower case. *)
Ltac lower_names :=
  repeat match goal with
         | |- context [Edge.lowercase ?s] =>
             let r := eval vm_compute in (Edge.lowercase s) in
             progress change (Edge.lowercase s) with r
         end.

Lemma region_servers :
  ApiProxy.REGION_SERVERS !!! "eu-frankfurt" = "http://fra.klawfetch.xyz:3000" /\
  ApiProxy.REGION_SERVERS !!! "ap-sydney" = "http://syd.klawfetch.xyz:3000" /\
  ApiProxy.REGION_SERVERS !!! "us-west" = "http://sfo.klawfetch.xyz:3000" /\
  ApiProxy.REGION_SERVERS !!! "us-east" = "http://nyc.klawfetch.xyz:3000".
Proof. repeat split; reflexivity. Qed.

(** Membership of a colo code in one list excludes it from the lists that
    are tested before. *)
Lemma colo_lists_disjoint (upper : string) :
  (upper ∈ ApiProxy.AsiaPacific -> upper ∉ ApiProxy.Europe) /\
  (upper ∈ ApiProxy.USWest ->
   (upper ∉ ApiProxy.Europe) /\ (upper ∉ ApiProxy.AsiaPacific)).
Proof.
  split.
  - intros Hin.
    repeat (apply elem_of_cons in Hin as [->|Hin];
            [intros Hno; unlisted Hno|]).
    by apply elem_of_nil in Hin.
  - intros Hin.
    repeat (apply elem_of_cons in Hin as [->|Hin];
            [split; intros Hno; unlisted Hno|]).
    by apply elem_of_nil in Hin.
Qed.

(** [getServerForRegion] names one of the four regional servers. *)
Lemma getServerForRegion_server (toUpperCase : string -> string)
    (colo : option string) :
  ApiProxy.getServerForRegion toUpperCase colo
    ∈ ["http://fra.klawfetch.xyz:3000"; "http://syd.klawfetch.xyz:3000";
       "http://sfo.klawfetch.xyz:3000"; "http://nyc.klawfetch.xyz:3000"].
Proof.
  destruct region_servers as (Hfra & Hsyd & Hsfo & Hnyc).
  unfold ApiProxy.getServerForRegion. rewrite Hfra, Hsyd, Hsfo, Hnyc.
  destruct colo as [c|]; [|listed].
  repeat case_bool_decide; listed.
Qed.

(** X16: [getServerForRegion] always names one of the four regional servers:
    New York for a missing or empty colo code, and otherwise the server of
    the list that holds the upper-cased code (Frankfurt for the European
    codes, Sydney for the Asian and Pacific ones, San Francisco for the
    western American ones), New York when no list holds it. *)
Theorem getServerForRegion_by_colo (toUpperCase : string -> string)
    (colo : option string) :
  ApiProxy.getServerForRegion toUpperCase colo
    ∈ ["http://fra.klawfetch.xyz:3000"; "http://syd.klawfetch.xyz:3000";
       "http://sfo.klawfetch.xyz:3000"; "http://nyc.klawfetch.xyz:3000"] /\
  (colo = None \/ colo = Some "" ->
   ApiProxy.getServerForRegion toUpperCase colo = "http://nyc.klawfetch.xyz:3000") /\
  (forall c, colo = Some c -> c <> "" ->
     (toUpperCase c ∈ ApiProxy.Europe ->
      ApiProxy.getServerForRegion toUpperCase colo
        = "http://fra.klawfetch.xyz:3000") /\
     (toUpperCase c ∈ ApiProxy.AsiaPacific ->
      ApiProxy.getServerForRegion toUpperCase colo
        = "http://syd.klawfetch.xyz:3000") /\
     (toUpperCase c ∈ ApiProxy.USWest ->
      ApiProxy.getServerForRegion toUpperCase colo
        = "http://sfo.klawfetch.xyz:3000") /\
     (toUpperCase c ∉ ApiProxy.Europe ++ ApiProxy.AsiaPacific ++ ApiProxy.USWest ->
      ApiProxy.getServerForRegion toUpperCase colo
        = "http://nyc.klawfetch.xyz:3000")).
Proof.
  split; [apply getServerForRegion_server|].
  destruct region_servers as (Hfra & Hsyd & Hsfo & Hnyc).
  unfold ApiProxy.getServerForRegion. rewrite Hfra, Hsyd, Hsfo, Hnyc.
  split.
  - intros [-> | ->]; [done|]. by rewrite bool_decide_eq_true_2.
  - intros c -> Hne. rewrite (bool_decide_eq_false_2 _ Hne).
    destruct (colo_lists_disjoint (toUpperCase c)) as [Hap Hus].
    repeat split.
    + intros Hin. by rewrite bool_decide_eq_true_2.
    + intros Hin. rewrite bool_decide_eq_false_2 by auto.
      by rewrite bool_decide_eq_true_2.
    + intros Hin. destruct (Hus Hin) as [Hno1 Hno2].
      rewrite !bool_decide_eq_false_2 by done.
      by rewrite bool_decide_eq_true_2.
    + intros Hno. rewrite !elem_of_app in Hno.
      rewrite !bool_decide_eq_false_2 by tauto. done.
Qed.

Lemma get_set_eq name v (h : gmap string string) :
  Edge.get name (Edge.set name v h) = Some v.
Proof. unfold Edge.get, Edge.set. apply lookup_insert_eq. Qed.

Lemma get_set_ne name name' v (h : gmap string string) :
  Edge.lowercase name <> Edge.lowercase name' ->
  Edge.get name (Edge.set name' v h) = Edge.get name h.
Proof. intros Hne. unfold Edge.get, Edge.set. by rewrite lookup_insert_ne. Qed.

Lemma strip_api_prefix (rest : string) : Edge.strip_api ("/api" +:+ rest) = rest.
Proof.
  unfold Edge.strip_api. rewrite prefix_append.
  exact (slice_append "/api" rest).
Qed.

Section ApiProxyFacts.

Variable toUpperCase : string -> string.
Variable status_error : Z -> string.

Local Abbreviation onRequest := (ApiProxy.onRequest toUpperCase status_error).
Local Abbreviation server_of request :=
  (ApiProxy.getServerForRegion toUpperCase
     (Edge.cf request ≫= Edge.colo)).

(** The forwarded request of the function for /api/*. *)
Lemma api_proxy_call request backend c :
  Edge.call (onRequest request backend) = Some c ->
  c = Edge.mkCall
        (server_of request
         +:+ Edge.strip_api (Edge.pathname (Edge.url request))
         +:+ Edge.search (Edge.url request))
        (Edge.method request)
        (Edge.remove "host"
           (Edge.set "X-Forwarded-Host" (Edge.hostname (Edge.url request))
              (Edge.set "X-Forwarded-Proto" "https"
                 (Edge.set "X-Forwarded-For"
                    (Edge.or_unknown (Edge.cf request ≫= Edge.ip))
                    (Edge.headers request)))))
        (Edge.call_body c) /\
  ((Edge.method request = "GET" \/ Edge.method request = "HEAD") /\
   Edge.call_body c = None \/
   Edge.method request <> "GET" /\ Edge.method request <> "HEAD" /\
   Edge.body request = Edge.Content (default "" (Edge.call_body c)) /\
   is_Some (Edge.call_body c)).
Proof.
  unfold ApiProxy.onRequest, ApiProxy.proxy_error.
  destruct (bool_decide (Edge.method request <> "GET")) eqn:Hget;
    [destruct (bool_decide (Edge.method request <> "HEAD")) eqn:Hhead|];
    simpl.
  - apply bool_decide_eq_true_1 in Hget, Hhead.
    destruct (Edge.body request) as [text|e]; [|done].
    destruct backend as [status ? ? ?|?];
      [destruct (Edge.response_status status)|];
      intros [= <-]; simpl; (split; [done|]); right; eauto.
  - apply bool_decide_eq_false_1 in Hhead.
    destruct backend as [status ? ? ?|?];
      [destruct (Edge.response_status status)|];
      intros [= <-]; simpl; (split; [done|]); left;
      (split; [|done]); right; by destruct (decide (Edge.method request = "HEAD")).
  - apply bool_decide_eq_false_1 in Hget.
    destruct backend as [status ? ? ?|?];
      [destruct (Edge.response_status status)|];
      intros [= <-]; simpl; (split; [done|]); left;
      (split; [|done]); left; by destruct (decide (Edge.method request = "GET")).
Qed.

(** X17: the function for /api/* forwards a request only to one of the four
    regional servers, the one [getServerForRegion] names for the colo code:
    the target is that server's address, the request path without its
    leading /api, and the query string. It forwards the method unchanged,
    the body as read for every method other than GET and HEAD, and no body
    for these two; it makes no call only when reading the body failed. *)
Theorem api_proxy_forwards (request : Edge.Request) (backend : Edge.Backend) :
  (Edge.call (onRequest request backend) = None <->
   Edge.method request <> "GET" /\ Edge.method request <> "HEAD" /\
   exists e, Edge.body request = Edge.ReadThrew e) /\
  (forall c,
      Edge.call (onRequest request backend) = Some c ->
      server_of request
        ∈ ["http://fra.klawfetch.xyz:3000"; "http://syd.klawfetch.xyz:3000";
           "http://sfo.klawfetch.xyz:3000"; "http://nyc.klawfetch.xyz:3000"] /\
      Edge.target c
        = server_of request
          +:+ Edge.strip_api (Edge.pathname (Edge.url request))
          +:+ Edge.search (Edge.url request) /\
      String.prefix (server_of request) (Edge.target c) = true /\
      (forall rest,
          Edge.pathname (Edge.url request) = "/api" +:+ rest ->
          Edge.target c
            = server_of request +:+ rest +:+ Edge.search (Edge.url request)) /\
      Edge.call_method c = Edge.method request /\
      (Edge.method request = "GET" \/ Edge.method request = "HEAD" ->
       Edge.call_body c = None) /\
      (Edge.method request <> "GET" -> Edge.method request <> "HEAD" ->
       exists text,
         Edge.body request = Edge.Content text /\ Edge.call_body c = Some text)).
Proof.
  split.
  - unfold ApiProxy.onRequest, ApiProxy.proxy_error.
    destruct (bool_decide (Edge.method request <> "GET")) eqn:Hget;
      [destruct (bool_decide (Edge.method request <> "HEAD")) eqn:Hhead|];
      simpl.
    + apply bool_decide_eq_true_1 in Hget, Hhead.
      destruct (Edge.body request) as [text|e].
      * split; [by answered backend|]. by intros (_ & _ & e & [=]).
      * split; [eauto|done].
    + apply bool_decide_eq_false_1 in Hhead.
      split; [by answered backend|]. by intros (_ & Hno & _).
    + apply bool_decide_eq_false_1 in Hget.
      split; [by answered backend|]. by intros (Hno & _).
  - intros c Hc. destruct (api_proxy_call request backend c Hc) as [Heq Hbody].
    split; [apply getServerForRegion_server|].
    rewrite Heq. simpl. split; [done|]. split; [apply prefix_append|].
    split; [by intros rest ->; rewrite strip_api_prefix|]. split; [done|].
    split.
    + intros Hm. destruct Hbody as [[_ Hnone]|(Hget & Hhead & _)]; [done|].
      by destruct Hm.
    + intros Hget Hhead.
      destruct Hbody as [[[Hm|Hm] _]|(_ & _ & Hread & [text Htext])]; [done..|].
      exists text. rewrite Htext in Hread |- *. done.
Qed.

(** X18: the request forwarded by the function for /api/* has no [host]
    header, names the original host in [X-Forwarded-Host], https in
    [X-Forwarded-Proto] and the client address of [cf], or unknown, in
    [X-Forwarded-For], whatever the client sent under these names; every
    other header of the client is forwarded as it came. *)
Theorem api_proxy_headers (request : Edge.Request) (backend : Edge.Backend)
    (c : Edge.Call) :
  Edge.call (onRequest request backend) = Some c ->
  Edge.get "Host" (Edge.call_headers c) = None /\
  Edge.get "X-Forwarded-Host" (Edge.call_headers c)
    = Some (Edge.hostname (Edge.url request)) /\
  Edge.get "X-Forwarded-Proto" (Edge.call_headers c) = Some "https" /\
  Edge.get "X-Forwarded-For" (Edge.call_headers c)
    = Some (Edge.or_unknown (Edge.cf request ≫= Edge.ip)) /\
  (forall name,
      name ∉ ["host"; "x-forwarded-host"; "x-forwarded-proto"; "x-forwarded-for"] ->
      Edge.call_headers c !! name = Edge.headers request !! name).
Proof.
  intros Hc. destruct (api_proxy_call request backend c Hc) as [-> _]. simpl.
  unfold Edge.get, Edge.remove, Edge.set. lower_names.
  split; [apply lookup_delete_eq|].
  split; [by rewrite lookup_delete_ne, lookup_insert_eq|].
  split; [by rewrite lookup_delete_ne, lookup_insert_ne, lookup_insert_eq|].
  split; [by rewrite lookup_delete_ne, 2!lookup_insert_ne, lookup_insert_eq|].
  intros name Hname.
  rewrite !elem_of_cons, elem_of_nil in Hname.
  rewrite lookup_delete_ne, 3!lookup_insert_ne; [done|intros <-; tauto..].
Qed.

(** X19: every reply of the function for /api/* allows any origin and
    carries a status from 200 to 599. When the regional server answers with
    such a status, its status, status text and body are passed on,
    [X-Served-By] names the server chosen and [X-Region] the colo code, or
    unknown, and the other headers of the answer are kept; when it answers
    with another status, the reply is a 502 with the message of the
    [RangeError]; when reading the body or the call fails, the reply is a 502
    that names the server. *)
Theorem api_proxy_replies (request : Edge.Request) (backend : Edge.Backend) :
  Edge.get "Access-Control-Allow-Origin"
    (Edge.response_headers (Edge.response (onRequest request backend)))
    = Some "*" /\
  200 <= Edge.status (Edge.response (onRequest request backend)) <= 599 /\
  (forall status statusText hs content,
      backend = Edge.Answered status statusText hs content ->
      is_Some (Edge.call (onRequest request backend)) ->
      200 <= status <= 599 ->
      Edge.status (Edge.response (onRequest request backend)) = status /\
      Edge.statusText (Edge.response (onRequest request backend)) = statusText /\
      Edge.response_body (Edge.response (onRequest request backend))
        = Edge.Passed content /\
      Edge.get "X-Served-By"
        (Edge.response_headers (Edge.response (onRequest request backend)))
        = Some (server_of request) /\
      Edge.get "X-Region"
        (Edge.response_headers (Edge.response (onRequest request backend)))
        = Some (Edge.or_unknown (Edge.cf request ≫= Edge.colo)) /\
      (forall name,
          name ∉ ["access-control-allow-origin"; "x-served-by"; "x-region"] ->
          Edge.response_headers (Edge.response (onRequest request backend))
            !! name = hs !! name)) /\
  (forall status statusText hs content,
      backend = Edge.Answered status statusText hs content ->
      is_Some (Edge.call (onRequest request backend)) ->
      status < 200 \/ 599 < status ->
      Edge.status (Edge.response (onRequest request backend)) = 502 /\
      Edge.response_body (Edge.response (onRequest request backend))
        = Edge.ProxyError "Proxy error" (status_error status)
            (server_of request)) /\
  ((exists e, backend = Edge.FetchThrew e) \/
   Edge.call (onRequest request backend) = None ->
   Edge.status (Edge.response (onRequest request backend)) = 502 /\
   exists message,
     Edge.response_body (Edge.response (onRequest request backend))
       = Edge.ProxyError "Proxy error" message (server_of request)).
Proof.
  assert (Hliteral : forall h : gmap string string,
             Edge.get "Access-Control-Allow-Origin"
               (Edge.set "X-Region" (Edge.or_unknown (Edge.cf request ≫= Edge.colo))
                  (Edge.set "X-Served-By" (server_of request)
                     (Edge.set "Access-Control-Allow-Origin" "*" h)))
             = Some "*").
  { intros h. unfold Edge.get, Edge.set. lower_names.
    by rewrite 2!lookup_insert_ne, lookup_insert_eq. }
  unfold ApiProxy.onRequest, ApiProxy.proxy_error, Edge.response_status.
  destruct (bool_decide (Edge.method request <> "GET")
            && bool_decide (Edge.method request <> "HEAD"));
    [destruct (Edge.body request) as [text|e]|];
    destruct backend as [status statusText hs content|e']; simpl;
    try case_bool_decide; simpl.
  all: split; [apply Hliteral || reflexivity|].
  all: split; [lia|].
  all: split;
    [intros status' statusText' hs' content' [=] Hcall Hrange; subst;
     try (by destruct Hcall); try lia|].
  all: try (split;
    [intros status' statusText' hs' content' [=] Hcall Hrange; subst;
     try (by destruct Hcall); try lia; try done
    |try lia; try (intros [[e0 [=]]|[=]]; eauto)]).
  all: repeat split; try done.
  all: unfold Edge.get, Edge.set; lower_names.
  all: try (by rewrite lookup_insert_ne, lookup_insert_eq).
  all: try (by rewrite lookup_insert_eq).
  all: intros name Hname; rewrite !elem_of_cons, elem_of_nil in Hname;
    rewrite 3!lookup_insert_ne; [done|intros <-; tauto..].
Qed.

End ApiProxyFacts.

Lemma backends_own (key url : string) :
  V1Proxy.BACKENDS !! key = Some url ->
  (key, url)
    ∈ [("eu-frankfurt", "http://fra.klawfetch.xyz:3000");
       ("ap-sydney", "http://syd.klawfetch.xyz:3000");
       ("us-west", "http://sfo.klawfetch.xyz:3000");
       ("us-east", "http://nyc.klawfetch.xyz:3000")].
Proof. apply elem_of_list_to_map_2. Qed.

Lemma lookup_own (key url : string) :
  V1Proxy.lookup key = V1Proxy.Own url <-> V1Proxy.BACKENDS !! key = Some url.
Proof.
  unfold V1Proxy.lookup.
  destruct (V1Proxy.BACKENDS !! key) as [u|]; [|by case_bool_decide].
  split; by intros [= ->].
Qed.

Lemma lookup_inherited (key : string) :
  key ∈ V1Proxy.Object_prototype -> V1Proxy.lookup key = V1Proxy.Inherited.
Proof.
  intros Hin. unfold V1Proxy.lookup.
  rewrite (bool_decide_eq_true_2 _ Hin).
  repeat (apply elem_of_cons in Hin as [->|Hin]; [reflexivity|]).
  by apply elem_of_nil in Hin.
Qed.

Section V1ProxyFacts.

Variable JSON_region : string -> option string.
Variable invalid_url : string.
Variable status_error : Z -> string.

Local Abbreviation onRequest :=
  (V1Proxy.onRequest JSON_region invalid_url status_error).
Local Abbreviation route :=
  (V1Proxy.route JSON_region invalid_url status_error).
Local Abbreviation chosen := (V1Proxy.chosen_region JSON_region).

(** The forwarded request of the function for /v1/*. *)
Lemma v1_proxy_call request backend c :
  Edge.call (onRequest request backend) = Some c ->
  Edge.method request <> "OPTIONS" /\
  (Edge.method request = "POST" ->
   exists text, Edge.body request = Edge.Content text) /\
  exists base,
    V1Proxy.BACKENDS !! chosen (v1_body_text request) = Some base /\
    c = Edge.mkCall
          (base +:+ (Edge.pathname (Edge.url request)
                     +:+ Edge.search (Edge.url request)))
          (Edge.method request)
          (Edge.request_headers (v1_body_text request) (Edge.headers request))
          (v1_body_text request).
Proof.
  unfold V1Proxy.onRequest, v1_body_text.
  case_bool_decide as Hopt; [done|].
  assert (Hroute : forall bodyText,
             Edge.call (route request bodyText backend) = Some c ->
             exists base,
               V1Proxy.BACKENDS !! chosen bodyText = Some base /\
               c = Edge.mkCall
                     (base +:+ (Edge.pathname (Edge.url request)
                                +:+ Edge.search (Edge.url request)))
                     (Edge.method request)
                     (Edge.request_headers bodyText (Edge.headers request))
                     bodyText).
  { intros bodyText. unfold V1Proxy.route.
    destruct (V1Proxy.lookup (chosen bodyText)) as [base| |] eqn:Hl; [|done..].
    apply lookup_own in Hl.
    answered backend; intros [= <-]; by exists base. }
  case_bool_decide as Hpost.
  - destruct (Edge.body request) as [text|e]; [|done].
    intros Hc. split; [done|]. split; [by eauto|]. by apply Hroute.
  - intros Hc. split; [done|]. split; [done|]. by apply Hroute.
Qed.

(** X20: the function for /v1/* forwards a request only to one of the four
    regional backends, at that backend's address followed by the path and
    the query string. A request that is no POST always goes to us-east; a
    POST goes to the backend its body names in [region], and to us-east when
    the body is no JSON, names no region or names an unknown one. *)
Theorem v1_proxy_routes (request : Edge.Request) (backend : Edge.Backend) :
  (forall c,
      Edge.call (onRequest request backend) = Some c ->
      exists region base,
        (region, base)
          ∈ [("eu-frankfurt", "http://fra.klawfetch.xyz:3000");
             ("ap-sydney", "http://syd.klawfetch.xyz:3000");
             ("us-west", "http://sfo.klawfetch.xyz:3000");
             ("us-east", "http://nyc.klawfetch.xyz:3000")] /\
        Edge.target c
          = base +:+ (Edge.pathname (Edge.url request)
                      +:+ Edge.search (Edge.url request)) /\
        (Edge.method request <> "POST" -> region = "us-east") /\
        (forall text,
            Edge.body request = Edge.Content text ->
            JSON_region text = None -> region = "us-east") /\
        (forall text key,
            Edge.method request = "POST" ->
            Edge.body request = Edge.Content text ->
            JSON_region text = Some key ->
            region = key \/
            region = "us-east" /\ V1Proxy.BACKENDS !! key = None)) /\
  (forall text key base,
      Edge.method request = "POST" ->
      Edge.body request = Edge.Content text ->
      JSON_region text = Some key ->
      V1Proxy.BACKENDS !! key = Some base ->
      exists c,
        Edge.call (onRequest request backend) = Some c /\
        Edge.target c
          = base +:+ (Edge.pathname (Edge.url request)
                      +:+ Edge.search (Edge.url request))).
Proof.
  split.
  - intros c Hc.
    destruct (v1_proxy_call request backend c Hc)
      as (_ & _ & base & Hown & ->).
    exists (chosen (v1_body_text request)), base.
    split; [by apply backends_own|]. split; [done|].
    unfold v1_body_text, V1Proxy.chosen_region. split; [|split].
    + intros Hno. by rewrite bool_decide_eq_false_2.
    + intros text -> Hnone. case_bool_decide; [|done]. by rewrite Hnone.
    + intros text key Hpost -> Hkey.
      rewrite bool_decide_eq_true_2, Hkey by done.
      unfold V1Proxy.lookup.
      destruct (V1Proxy.BACKENDS !! key); [by left|].
      case_bool_decide; [by left|by right].
  - intros text key base Hpost Hread Hkey Hown.
    unfold V1Proxy.onRequest. rewrite Hpost, Hread. simpl.
    unfold V1Proxy.route, V1Proxy.chosen_region. rewrite Hkey.
    rewrite (proj2 (lookup_own key base) Hown).
    rewrite (proj2 (lookup_own key base) Hown).
    answered backend; eexists; (split; [done|done]).
Qed.

(** X23: a POST to the function for /v1/* whose body names as region a
    property name of [Object.prototype] (constructor, toString, ...) passes
    the region test, since the lookup in the object literal finds the
    inherited property; no request can be built from it, and the reply is
    502 [Backend unavailable] without any call to a backend. *)
Theorem v1_proxy_inherited_region (request : Edge.Request)
    (backend : Edge.Backend) (text key : string) :
  Edge.method request = "POST" ->
  Edge.body request = Edge.Content text ->
  JSON_region text = Some key ->
  key ∈ V1Proxy.Object_prototype ->
  chosen (Some text) = key /\
  Edge.call (onRequest request backend) = None /\
  Edge.status (Edge.response (onRequest request backend)) = 502 /\
  Edge.response_body (Edge.response (onRequest request backend))
    = Edge.BackendUnavailable "Backend unavailable" (Some invalid_url).
Proof.
  intros Hpost Hread Hkey Hproto.
  unfold V1Proxy.onRequest. rewrite Hpost, Hread. simpl.
  unfold V1Proxy.route, V1Proxy.chosen_region. rewrite Hkey.
  rewrite (lookup_inherited key Hproto).
  by rewrite (lookup_inherited key Hproto).
Qed.

(** X21: what the function for /v1/* forwards is the client's request: the
    same method, every header of the client as it came, and as body the text
    of a POST exactly as it was read; a request of any other method is
    forwarded without a body and with the client's headers alone. The one
    header the function can add is the content type: a POST that names none
    is forwarded as text/plain;charset=UTF-8, since its body is passed on as
    a string. A pre-flight OPTIONS request is never forwarded. *)
Theorem v1_proxy_passes_request (request : Edge.Request) (backend : Edge.Backend)
    (c : Edge.Call) :
  Edge.call (onRequest request backend) = Some c ->
  Edge.method request <> "OPTIONS" /\
  Edge.call_method c = Edge.method request /\
  Edge.call_headers c
    = Edge.request_headers (Edge.call_body c) (Edge.headers request) /\
  (forall name v,
      Edge.headers request !! name = Some v ->
      Edge.call_headers c !! name = Some v) /\
  (forall name,
      name <> "content-type" ->
      Edge.call_headers c !! name = Edge.headers request !! name) /\
  (Edge.method request <> "POST" \/
   is_Some (Edge.get "Content-Type" (Edge.headers request)) ->
   Edge.call_headers c = Edge.headers request) /\
  (Edge.method request = "POST" ->
   Edge.get "Content-Type" (Edge.headers request) = None ->
   Edge.get "Content-Type" (Edge.call_headers c)
     = Some "text/plain;charset=UTF-8") /\
  (Edge.method request = "POST" ->
   exists text,
     Edge.body request = Edge.Content text /\ Edge.call_body c = Some text) /\
  (Edge.method request <> "POST" -> Edge.call_body c = None).
Proof.
  intros Hc.
  destruct (v1_proxy_call request backend c Hc)
    as (Hopt & Hread & base & _ & ->).
  split; [done|]. split; [done|]. split; [done|].
  unfold v1_body_text, Edge.request_headers. simpl.
  split; [|split; [|split; [|split; [|split]]]].
  - intros name v Hname.
    destruct (if bool_decide (Edge.method request = "POST") then _ else _);
      [|done].
    destruct (Edge.get "Content-Type" (Edge.headers request)) as [w|] eqn:Hct;
      [done|].
    unfold Edge.set. rewrite lookup_insert_ne; [done|].
    intros <-. unfold Edge.get in Hct. congruence.
  - intros name Hname.
    destruct (if bool_decide (Edge.method request = "POST") then _ else _);
      [|done].
    destruct (Edge.get "Content-Type" (Edge.headers request)); [done|].
    unfold Edge.set. lower_names. by rewrite lookup_insert_ne.
  - intros [Hno|[w Hct]].
    + by rewrite bool_decide_eq_false_2.
    + rewrite Hct. by destruct (if bool_decide _ then _ else _).
  - intros Hpost Hct. destruct (Hread Hpost) as [text Htext].
    rewrite bool_decide_eq_true_2, Htext, Hct by done.
    apply get_set_eq.
  - intros Hpost. destruct (Hread Hpost) as [text Htext].
    exists text. by rewrite bool_decide_eq_true_2, Htext.
  - intros Hno. by rewrite bool_decide_eq_false_2.
Qed.

(** X22: every reply of the function for /v1/* allows any origin and carries
    a status from 200 to 599. OPTIONS is answered 204 with the allowed
    methods and headers and a max age of 86400; an answer of the backend
    with a status from 200 to 599 is passed on with its status, status text,
    body and other headers; an answer with another status gives a 502 with
    the message of the [RangeError]; and when reading the body, building the
    request or the call fails, the reply is 502 [Backend unavailable]. *)
Theorem v1_proxy_replies (request : Edge.Request) (backend : Edge.Backend) :
  Edge.get "Access-Control-Allow-Origin"
    (Edge.response_headers (Edge.response (onRequest request backend)))
    = Some "*" /\
  200 <= Edge.status (Edge.response (onRequest request backend)) <= 599 /\
  (Edge.method request = "OPTIONS" ->
   Edge.status (Edge.response (onRequest request backend)) = 204 /\
   Edge.call (onRequest request backend) = None /\
   Edge.get "Access-Control-Max-Age"
     (Edge.response_headers (Edge.response (onRequest request backend)))
     = Some "86400") /\
  (forall status statusText hs content,
      backend = Edge.Answered status statusText hs content ->
      is_Some (Edge.call (onRequest request backend)) ->
      200 <= status <= 599 ->
      Edge.status (Edge.response (onRequest request backend)) = status /\
      Edge.statusText (Edge.response (onRequest request backend)) = statusText /\
      Edge.response_body (Edge.response (onRequest request backend))
        = Edge.Passed content /\
      (forall name,
          name ∉ ["access-control-allow-origin"; "access-control-allow-methods";
                  "access-control-allow-headers"] ->
          Edge.response_headers (Edge.response (onRequest request backend))
            !! name = hs !! name)) /\
  (forall status statusText hs content,
      backend = Edge.Answered status statusText hs content ->
      is_Some (Edge.call (onRequest request backend)) ->
      status < 200 \/ 599 < status ->
      Edge.status (Edge.response (onRequest request backend)) = 502 /\
      Edge.response_body (Edge.response (onRequest request backend))
        = Edge.BackendUnavailable "Backend unavailable"
            (Some (status_error status))) /\
  (Edge.method request <> "OPTIONS" ->
   (exists e, backend = Edge.FetchThrew e) \/
   Edge.call (onRequest request backend) = None ->
   Edge.status (Edge.response (onRequest request backend)) = 502 /\
   exists details,
     Edge.response_body (Edge.response (onRequest request backend))
       = Edge.BackendUnavailable "Backend unavailable" details).
Proof.
  assert (Hroute : forall bodyText,
             Edge.get "Access-Control-Allow-Origin"
               (Edge.response_headers
                  (Edge.response (route request bodyText backend)))
               = Some "*" /\
             200 <= Edge.status (Edge.response (route request bodyText backend))
               <= 599 /\
             (forall status statusText hs content,
                 backend = Edge.Answered status statusText hs content ->
                 is_Some (Edge.call (route request bodyText backend)) ->
                 200 <= status <= 599 ->
                 Edge.status (Edge.response (route request bodyText backend))
                   = status /\
                 Edge.statusText (Edge.response (route request bodyText backend))
                   = statusText /\
                 Edge.response_body
                   (Edge.response (route request bodyText backend))
                   = Edge.Passed content /\
                 (forall name,
                     name ∉ ["access-control-allow-origin";
                             "access-control-allow-methods";
                             "access-control-allow-headers"] ->
                     Edge.response_headers
                       (Edge.response (route request bodyText backend)) !! name
                       = hs !! name)) /\
             (forall status statusText hs content,
                 backend = Edge.Answered status statusText hs content ->
                 is_Some (Edge.call (route request bodyText backend)) ->
                 status < 200 \/ 599 < status ->
                 Edge.status (Edge.response (route request bodyText backend))
                   = 502 /\
                 Edge.response_body
                   (Edge.response (route request bodyText backend))
                   = Edge.BackendUnavailable "Backend unavailable"
                       (Some (status_error status))) /\
             ((exists e, backend = Edge.FetchThrew e) \/
              Edge.call (route request bodyText backend) = None ->
              Edge.status (Edge.response (route request bodyText backend)) = 502 /\
              exists details,
                Edge.response_body
                  (Edge.response (route request bodyText backend))
                  = Edge.BackendUnavailable "Backend unavailable" details)).
  { intros bodyText.
    unfold V1Proxy.route, V1Proxy.backend_unavailable, Edge.response_status.
    destruct (V1Proxy.lookup _) as [base| |];
      destruct backend as [status statusText hs content|e]; simpl;
      try case_bool_decide; simpl.
    all: split;
      [reflexivity ||
       (unfold Edge.get, Edge.set; lower_names;
        by rewrite 2!lookup_insert_ne, lookup_insert_eq)|].
    all: split; [lia|].
    all: split;
      [intros status' statusText' hs' content' [=] Hcall Hrange; subst;
       try (by destruct Hcall); try lia|].
    all: try (split;
      [intros status' statusText' hs' content' [=] Hcall Hrange; subst;
       try (by destruct Hcall); try lia; try done
      |try lia; try (intros [[e0 [=]]|[=]]; eauto)]).
    repeat split; try done.
    intros name Hname. rewrite !elem_of_cons, elem_of_nil in Hname.
    unfold Edge.set. lower_names.
    rewrite 3!lookup_insert_ne; [done|intros <-; tauto..]. }
  unfold V1Proxy.onRequest.
  case_bool_decide as Hopt.
  - simpl. split; [reflexivity|]. split; [lia|]. split; [by intros _|].
    split; [by intros ? ? ? ? _ [? [=]]|].
    split; [by intros ? ? ? ? _ [? [=]]|done].
  - case_bool_decide as Hpost; [destruct (Edge.body request) as [text|e]|].
    + destruct (Hroute (Some text)) as (Hacao & Hrange & Hpass & Hbad & Hfail).
      split; [exact Hacao|]. split; [exact Hrange|]. split; [done|].
      split; [exact Hpass|]. split; [exact Hbad|by intros _].
    + unfold V1Proxy.backend_unavailable. simpl.
      split; [reflexivity|]. split; [lia|]. split; [done|].
      split; [by intros ? ? ? ? _ [? [=]]|].
      split; [by intros ? ? ? ? _ [? [=]]|]. intros _ _. eauto.
    + destruct (Hroute None) as (Hacao & Hrange & Hpass & Hbad & Hfail).
      split; [exact Hacao|]. split; [exact Hrange|]. split; [done|].
      split; [exact Hpass|]. split; [exact Hbad|by intros _].
Qed.

End V1ProxyFacts.

Lemma getServerForRegion_by_colo_witness :
  Some "fra" = Some "fra" /\
  "fra" <> "" /\
  colo_upper "fra" ∈ ApiProxy.Europe /\
  ApiProxy.getServerForRegion colo_upper (Some "fra")
    = "http://fra.klawfetch.xyz:3000" /\
  ApiProxy.getServerForRegion colo_upper (Some "")
    = "http://nyc.klawfetch.xyz:3000".
Proof.
  assert (Hne : "fra" <> "") by discriminate.
  assert (Hin : colo_upper "fra" ∈ ApiProxy.Europe) by listed.
  destruct (getServerForRegion_by_colo colo_upper (Some "fra"))
    as (_ & _ & Hlists).
  destruct (Hlists "fra" eq_refl Hne) as (Heurope & _).
  destruct (getServerForRegion_by_colo colo_upper (Some ""))
    as (_ & Hdefault & _).
  split; [reflexivity|]. split; [exact Hne|]. split; [exact Hin|].
  split; [exact (Heurope Hin)|exact (Hdefault (or_intror eq_refl))].
Defined.

Lemma api_proxy_forwards_witness :
  is_Some (Edge.call (ApiProxy.onRequest colo_upper sample_status_error api_request node_answer)) /\
  Edge.pathname (Edge.url api_request) = "/api" +:+ "/v1/fetch" /\
  Edge.target <$> Edge.call (ApiProxy.onRequest colo_upper sample_status_error api_request node_answer)
    = Some "http://fra.klawfetch.xyz:3000/v1/fetch?debug=1".
Proof.
  destruct (Edge.call (ApiProxy.onRequest colo_upper sample_status_error api_request node_answer))
    as [c|] eqn:Hc; [|discriminate Hc].
  destruct (proj2 (api_proxy_forwards colo_upper sample_status_error api_request node_answer) c Hc)
    as (_ & _ & _ & Hrest & _).
  split; [by exists c|]. split; [reflexivity|].
  simpl. f_equal. exact (Hrest "/v1/fetch" eq_refl).
Defined.

Lemma api_proxy_headers_witness :
  is_Some (Edge.call (ApiProxy.onRequest colo_upper sample_status_error api_request node_answer)) /\
  Edge.get "X-Forwarded-For" (Edge.headers api_request) = Some "10.1.2.3" /\
  (Edge.call (ApiProxy.onRequest colo_upper sample_status_error api_request node_answer)
     ≫= fun c => Edge.get "X-Forwarded-For" (Edge.call_headers c))
    = Some "203.0.113.7" /\
  (Edge.call (ApiProxy.onRequest colo_upper sample_status_error api_request node_answer)
     ≫= fun c => Edge.get "Host" (Edge.call_headers c))
    = None.
Proof.
  destruct (Edge.call (ApiProxy.onRequest colo_upper sample_status_error api_request node_answer))
    as [c|] eqn:Hc; [|discriminate Hc].
  destruct (api_proxy_headers colo_upper sample_status_error api_request node_answer c Hc)
    as (Hhost & _ & _ & Hfor & _).
  split; [by exists c|]. split; [reflexivity|].
  split; [exact Hfor|exact Hhost].
Defined.

Lemma api_proxy_replies_witness :
  node_answer
    = Edge.Answered 200 "OK"
        {["access-control-allow-origin" := "https://evil.example"]} "{}" /\
  is_Some (Edge.call (ApiProxy.onRequest colo_upper sample_status_error
                        api_request node_answer)) /\
  200 <= 200 <= 599 /\
  Edge.get "Access-Control-Allow-Origin"
    (Edge.response_headers
       (Edge.response (ApiProxy.onRequest colo_upper sample_status_error
                         api_request node_answer)))
    = Some "*" /\
  Edge.status
    (Edge.response (ApiProxy.onRequest colo_upper sample_status_error
                      api_request node_answer))
    = 200 /\
  odd_answer = Edge.Answered 999 "" ∅ "denied" /\
  is_Some (Edge.call (ApiProxy.onRequest colo_upper sample_status_error
                        api_request odd_answer)) /\
  (999 < 200 \/ 599 < 999) /\
  Edge.status
    (Edge.response (ApiProxy.onRequest colo_upper sample_status_error
                      api_request odd_answer))
    = 502.
Proof.
  assert (Hcall : is_Some (Edge.call (ApiProxy.onRequest colo_upper
                                        sample_status_error api_request
                                        node_answer)))
    by (eexists; reflexivity).
  assert (Hrange : 200 <= 200 <= 599) by lia.
  assert (Hcall' : is_Some (Edge.call (ApiProxy.onRequest colo_upper
                                         sample_status_error api_request
                                         odd_answer)))
    by (eexists; reflexivity).
  assert (Hout : 999 < 200 \/ 599 < 999) by (right; lia).
  destruct (api_proxy_replies colo_upper sample_status_error api_request
              node_answer) as (Hacao & _ & Hpass & _).
  destruct (Hpass _ _ _ _ eq_refl Hcall Hrange) as (Hstatus & _).
  destruct (api_proxy_replies colo_upper sample_status_error api_request
              odd_answer) as (_ & _ & _ & Hbad & _).
  destruct (Hbad _ _ _ _ eq_refl Hcall' Hout) as (Hstatus' & _).
  split; [reflexivity|]. split; [exact Hcall|]. split; [exact Hrange|].
  split; [exact Hacao|]. split; [exact Hstatus|].
  split; [reflexivity|]. split; [exact Hcall'|]. split; [exact Hout|].
  exact Hstatus'.
Defined.

Lemma v1_proxy_routes_witness :
  Edge.method (v1_request "POST" (region_json "ap-sydney")) = "POST" /\
  Edge.body (v1_request "POST" (region_json "ap-sydney"))
    = Edge.Content (region_json "ap-sydney") /\
  sample_region_of (region_json "ap-sydney") = Some "ap-sydney" /\
  V1Proxy.BACKENDS !! "ap-sydney" = Some "http://syd.klawfetch.xyz:3000" /\
  exists c,
    Edge.call (V1Proxy.onRequest sample_region_of "Invalid URL" sample_status_error
                 (v1_request "POST" (region_json "ap-sydney")) node_answer)
      = Some c /\
    Edge.target c
      = "http://syd.klawfetch.xyz:3000"
        +:+ (Edge.pathname (Edge.url (v1_request "POST" (region_json "ap-sydney")))
             +:+ Edge.search (Edge.url (v1_request "POST" (region_json "ap-sydney")))).
Proof.
  destruct (v1_proxy_routes sample_region_of "Invalid URL" sample_status_error
              (v1_request "POST" (region_json "ap-sydney")) node_answer)
    as (_ & Hown).
  split; [reflexivity|]. split; [reflexivity|]. split; [reflexivity|].
  split; [reflexivity|].
  exact (Hown _ _ _ eq_refl eq_refl eq_refl eq_refl).
Defined.

Lemma v1_proxy_inherited_region_witness :
  Edge.method (v1_request "POST" (region_json "constructor")) = "POST" /\
  Edge.body (v1_request "POST" (region_json "constructor"))
    = Edge.Content (region_json "constructor") /\
  sample_region_of (region_json "constructor") = Some "constructor" /\
  "constructor" ∈ V1Proxy.Object_prototype /\
  Edge.call (V1Proxy.onRequest sample_region_of "Invalid URL" sample_status_error
               (v1_request "POST" (region_json "constructor")) node_answer)
    = None /\
  Edge.status
    (Edge.response (V1Proxy.onRequest sample_region_of "Invalid URL" sample_status_error
                      (v1_request "POST" (region_json "constructor")) node_answer))
    = 502.
Proof.
  assert (Hproto : "constructor" ∈ V1Proxy.Object_prototype) by listed.
  destruct (v1_proxy_inherited_region sample_region_of "Invalid URL" sample_status_error
              (v1_request "POST" (region_json "constructor")) node_answer
              _ _ eq_refl eq_refl eq_refl Hproto)
    as (_ & Hcall & Hstatus & _).
  split; [reflexivity|]. split; [reflexivity|]. split; [reflexivity|].
  split; [exact Hproto|]. split; [exact Hcall|exact Hstatus].
Defined.

Lemma v1_proxy_passes_request_witness :
  is_Some (Edge.call (V1Proxy.onRequest sample_region_of "Invalid URL"
                        sample_status_error (v1_request "PUT" "payload")
                        node_answer)) /\
  (Edge.call (V1Proxy.onRequest sample_region_of "Invalid URL"
                sample_status_error (v1_request "PUT" "payload") node_answer)
     ≫= Edge.call_body) = None /\
  Edge.call_headers
    <$> Edge.call (V1Proxy.onRequest sample_region_of "Invalid URL"
                     sample_status_error (v1_request "PUT" "payload")
                     node_answer)
  = Some edge_headers /\
  is_Some (Edge.call (V1Proxy.onRequest sample_region_of "Invalid URL"
                        sample_status_error (v1_request "POST" "payload")
                        node_answer)) /\
  Edge.method (v1_request "POST" "payload") = "POST" /\
  Edge.get "Content-Type" (Edge.headers (v1_request "POST" "payload")) = None /\
  (Edge.call (V1Proxy.onRequest sample_region_of "Invalid URL"
                sample_status_error (v1_request "POST" "payload") node_answer)
     ≫= fun c => Edge.get "Content-Type" (Edge.call_headers c))
  = Some "text/plain;charset=UTF-8".
Proof.
  destruct (Edge.call (V1Proxy.onRequest sample_region_of "Invalid URL"
                         sample_status_error (v1_request "PUT" "payload")
                         node_answer))
    as [c|] eqn:Hc; [|discriminate Hc].
  destruct (v1_proxy_passes_request sample_region_of "Invalid URL"
              sample_status_error (v1_request "PUT" "payload") node_answer c Hc)
    as (_ & _ & _ & _ & _ & Hheaders & _ & _ & Hnobody).
  destruct (Edge.call (V1Proxy.onRequest sample_region_of "Invalid URL"
                         sample_status_error (v1_request "POST" "payload")
                         node_answer))
    as [c'|] eqn:Hc'; [|discriminate Hc'].
  destruct (v1_proxy_passes_request sample_region_of "Invalid URL"
              sample_status_error (v1_request "POST" "payload") node_answer
              c' Hc')
    as (_ & _ & _ & _ & _ & _ & Htype & _).
  split; [by exists c|]. split; [|split; [|split; [|split; [|split]]]].
  - apply Hnobody. discriminate.
  - simpl. f_equal. apply Hheaders. left. discriminate.
  - by exists c'.
  - reflexivity.
  - reflexivity.
  - exact (Htype eq_refl eq_refl).
Defined.

Lemma v1_proxy_replies_witness :
  Edge.method (v1_request "OPTIONS" "") = "OPTIONS" /\
  Edge.status
    (Edge.response (V1Proxy.onRequest sample_region_of "Invalid URL"
                      sample_status_error (v1_request "OPTIONS" "")
                      node_answer)) = 204 /\
  Edge.call (V1Proxy.onRequest sample_region_of "Invalid URL"
               sample_status_error (v1_request "OPTIONS" "") node_answer)
    = None /\
  Edge.get "Access-Control-Allow-Origin"
    (Edge.response_headers
       (Edge.response (V1Proxy.onRequest sample_region_of "Invalid URL"
                         sample_status_error (v1_request "POST" "no json")
                         node_answer)))
    = Some "*" /\
  is_Some (Edge.call (V1Proxy.onRequest sample_region_of "Invalid URL"
                        sample_status_error (v1_request "POST" "no json")
                        node_answer)) /\
  200 <= 200 <= 599 /\
  Edge.status
    (Edge.response (V1Proxy.onRequest sample_region_of "Invalid URL"
                      sample_status_error (v1_request "POST" "no json")
                      node_answer)) = 200 /\
  is_Some (Edge.call (V1Proxy.onRequest sample_region_of "Invalid URL"
                        sample_status_error (v1_request "POST" "no json")
                        odd_answer)) /\
  (999 < 200 \/ 599 < 999) /\
  Edge.status
    (Edge.response (V1Proxy.onRequest sample_region_of "Invalid URL"
                      sample_status_error (v1_request "POST" "no json")
                      odd_answer)) = 502.
Proof.
  assert (Hcall : is_Some (Edge.call (V1Proxy.onRequest sample_region_of
                                        "Invalid URL" sample_status_error
                                        (v1_request "POST" "no json")
                                        node_answer)))
    by (eexists; reflexivity).
  assert (Hrange : 200 <= 200 <= 599) by lia.
  assert (Hcall' : is_Some (Edge.call (V1Proxy.onRequest sample_region_of
                                         "Invalid URL" sample_status_error
                                         (v1_request "POST" "no json")
                                         odd_answer)))
    by (eexists; reflexivity).
  assert (Hout : 999 < 200 \/ 599 < 999) by (right; lia).
  destruct (v1_proxy_replies sample_region_of "Invalid URL" sample_status_error
              (v1_request "OPTIONS" "") node_answer)
    as (_ & _ & Hoptions & _).
  destruct (Hoptions eq_refl) as (Hstatus & Hnone & _).
  destruct (v1_proxy_replies sample_region_of "Invalid URL" sample_status_error
              (v1_request "POST" "no json") node_answer)
    as (Hacao & _ & _ & Hpass & _).
  destruct (Hpass _ _ _ _ eq_refl Hcall Hrange) as (Hok & _).
  destruct (v1_proxy_replies sample_region_of "Invalid URL" sample_status_error
              (v1_request "POST" "no json") odd_answer)
    as (_ & _ & _ & _ & Hbad & _).
  destruct (Hbad _ _ _ _ eq_refl Hcall' Hout) as (Hstatus' & _).
  split; [reflexivity|]. split; [exact Hstatus|]. split; [exact Hnone|].
  split; [exact Hacao|]. split; [exact Hcall|]. split; [exact Hrange|].
  split; [exact Hok|]. split; [exact Hcall'|]. split; [exact Hout|].
  exact Hstatus'.
Defined.
